(** * Copernicus product query: filter construction, paginated fetch and
    result normalisation

    A shallow embedding of the three functions of [copernicus_query_app.py]
    that carry logic ([build_odata_filter], [search_products] and
    [extract_product_info]) together with the properties their
    specification states about them. *)

From Stdlib Require Import String Ascii List ZArith Lia Bool QArith DecimalString.
From Stdlib Require Import Sorted Permutation.
Import ListNotations.

Close Scope Q_scope.
Open Scope string_scope.
Open Scope list_scope.

(* ================================================================== *)
(** * Part I: definitions *)
(* ================================================================== *)

(** ** Python values used by the three functions *)

(** [str(n)] for a non-negative integer such as [len(products)]. *)
Definition str_nat (n : nat) : string :=
  NilZero.string_of_uint (Nat.to_uint n).

(** Truthiness of an optional string ([if tile:], [if start_str:],
    [while next_link and ...], [if not s3_path]): [None] and the empty
    string are false, every other string is true. *)
Definition truthy_str (s : option string) : option string :=
  match s with
  | Some EmptyString => None
  | Some t => Some t
  | None => None
  end.

(** Truthiness of an optional integer ([if max_products]): [None] and [0]
    are false. *)
Definition truthy_int (k : option Z) : option Z :=
  match k with
  | Some z => if (z =? 0)%Z then None else Some z
  | None => None
  end.

(** [l[:r]]: the first [r] items for [r >= 0], all but the last [-r] items
    for a negative [r]. *)
Definition slice_to {A} (l : list A) (r : Z) : list A :=
  if (0 <=? r)%Z then firstn (Z.to_nat r) l
  else firstn (length l - Z.to_nat (- r)) l.

(** The exceptions the three functions can meet, all of classes derived
    from [Exception].  [RequestError] stands for whatever [requests.get],
    [raise_for_status] or [json] raise. *)
Inductive exception :=
| RequestError (text : string)
| ValueError (text : string)
| TypeError (text : string).

(** [str(e)] *)
Definition str_exc (e : exception) : string :=
  match e with
  | RequestError t | ValueError t | TypeError t => t
  end.

(** ** FilterBuilder: [build_odata_filter] *)

Module Filter.

#[local] Open Scope string_scope.

Record ProductConfig := {
  name : string;
  collection : string;
  product_type : string;
  instrument : string;
  description : string;
  requires_tile : bool
}.

(** The module-level table [PRODUCT_CONFIGS]. *)
Definition PRODUCT_CONFIGS : list (string * ProductConfig) :=
  [ ("sentinel2_l2a",
     {| name := "Sentinel-2 L2A"; collection := "SENTINEL-2";
        product_type := "S2MSI2A"; instrument := "MSI";
        description := "MSI Level-2A Bottom of Atmosphere Reflectance";
        requires_tile := true |});
    ("sentinel3_olci_l1_efr",
     {| name := "Sentinel-3 OLCI L1 EFR"; collection := "SENTINEL-3";
        product_type := "OL_1_EFR___"; instrument := "OLCI";
        description := "OLCI Level-1 Full Resolution";
        requires_tile := false |});
    ("sentinel3_slstr_l1_rbt",
     {| name := "Sentinel-3 SLSTR L1 RBT"; collection := "SENTINEL-3";
        product_type := "SL_1_RBT___"; instrument := "SLSTR";
        description := "SLSTR Level-1 Radiances and Brightness Temperatures";
        requires_tile := false |});
    ("sentinel1_grd",
     {| name := "Sentinel-1 GRD"; collection := "SENTINEL-1";
        product_type := "GRD"; instrument := "SAR";
        description := "SAR Ground Range Detected";
        requires_tile := false |}) ].

(** The bounding box dictionary.  Its values are Python floats; the filter
    only ever formats them, so the type of coordinates and their [str] are
    left open. *)
Record BBox (number : Type) := {
  west : number;
  south : number;
  east : number;
  north : number
}.
Arguments west {number} _.
Arguments south {number} _.
Arguments east {number} _.
Arguments north {number} _.

(** The local variables of [build_odata_filter], one definition each. *)

Definition collection_filter (config : ProductConfig) : string :=
  "Collection/Name eq '" ++ collection config ++ "'".

Definition bbox_polygon {number} (str : number -> string) (bbox : BBox number)
  : string :=
  "POLYGON((" ++
  str (west bbox) ++ " " ++ str (south bbox) ++ "," ++
  str (east bbox) ++ " " ++ str (south bbox) ++ "," ++
  str (east bbox) ++ " " ++ str (north bbox) ++ "," ++
  str (west bbox) ++ " " ++ str (north bbox) ++ "," ++
  str (west bbox) ++ " " ++ str (south bbox) ++
  "))".

Definition spatial_filter {number} (str : number -> string) (bbox : BBox number)
  : string :=
  "OData.CSC.Intersects(area=geography'SRID=4326;" ++ bbox_polygon str bbox ++ "')".

Definition type_filter (config : ProductConfig) : string :=
  "Attributes/OData.CSC.StringAttribute/any(" ++
  "att:att/Name eq 'productType' and " ++
  "att/OData.CSC.StringAttribute/Value eq '" ++ product_type config ++ "'" ++
  ")".

Definition tile_filter (tile : string) : string :=
  "contains(Name,'" ++ tile ++ "')".

Definition instrument_filter (config : ProductConfig) : string :=
  "Attributes/OData.CSC.StringAttribute/any(" ++
  "att:att/Name eq 'instrumentShortName' and " ++
  "att/OData.CSC.StringAttribute/Value eq '" ++ instrument config ++ "'" ++
  ")".

Definition name_filter (config : ProductConfig) : string :=
  "contains(Name,'" ++ product_type config ++ "')".

Definition start_time (start_date : string) : string :=
  start_date ++ "T00:00:00.000Z".

Definition end_time (end_date : string) : string :=
  end_date ++ "T23:59:59.999Z".

Definition temporal_filter (start_date end_date : string) : string :=
  "ContentDate/Start ge " ++ start_time start_date ++
  " and ContentDate/Start le " ++ end_time end_date.

(** [build_odata_filter(config, bbox, start_date, end_date, tile=None)] *)
Definition build_odata_filter {number} (str : number -> string)
    (config : ProductConfig) (bbox : BBox number)
    (start_date end_date : string) (tile : option string) : string :=
  let odata_filter :=
    if collection config =? "SENTINEL-2" then
      match truthy_str tile with
      | Some t =>
          collection_filter config ++ " and " ++ type_filter config ++ " and " ++
          tile_filter t ++ " and " ++ spatial_filter str bbox
      | None =>
          collection_filter config ++ " and " ++ type_filter config ++ " and " ++
          spatial_filter str bbox
      end
    else
      collection_filter config ++ " and " ++ instrument_filter config ++ " and " ++
      name_filter config ++ " and " ++ spatial_filter str bbox
  in
  odata_filter ++ " and " ++ temporal_filter start_date end_date.

(** *** The clauses of a filter

    A reading of the same function that keeps the clauses apart: each
    clause is paired with the name of the local variable that holds it in
    the source.  [build_odata_filter_clauses] below shows that the filter
    string is these clauses joined. *)
Inductive clause_name :=
| collection_clause
| type_clause
| tile_clause
| instrument_clause
| name_clause
| spatial_clause
| temporal_clause.

Definition filter_clauses {number} (str : number -> string)
    (config : ProductConfig) (bbox : BBox number)
    (start_date end_date : string) (tile : option string)
  : list (clause_name * string) :=
  ((if collection config =? "SENTINEL-2" then
     match truthy_str tile with
     | Some t =>
         [ (collection_clause, collection_filter config);
           (type_clause, type_filter config);
           (tile_clause, tile_filter t);
           (spatial_clause, spatial_filter str bbox) ]
     | None =>
         [ (collection_clause, collection_filter config);
           (type_clause, type_filter config);
           (spatial_clause, spatial_filter str bbox) ]
     end
   else
     [ (collection_clause, collection_filter config);
       (instrument_clause, instrument_filter config);
       (name_clause, name_filter config);
       (spatial_clause, spatial_filter str bbox) ])
  ++ [ (temporal_clause, temporal_filter start_date end_date) ])%list.

(** The groups of the documented clause order. *)
Inductive clause_group := g_collection | g_type_instrument | g_spatial | g_temporal.

Definition group_of (c : clause_name) : clause_group :=
  match c with
  | collection_clause => g_collection
  | type_clause | tile_clause | instrument_clause | name_clause => g_type_instrument
  | spatial_clause => g_spatial
  | temporal_clause => g_temporal
  end.

Definition clause_name_eqb (a b : clause_name) : bool :=
  match a, b with
  | collection_clause, collection_clause
  | type_clause, type_clause
  | tile_clause, tile_clause
  | instrument_clause, instrument_clause
  | name_clause, name_clause
  | spatial_clause, spatial_clause
  | temporal_clause, temporal_clause => true
  | _, _ => false
  end.

(** Does the filter carry a tile clause? *)
Definition has_tile_clause (cs : list (clause_name * string)) : bool :=
  existsb (fun c => clause_name_eqb (fst c) tile_clause) cs.

(** [needle in hay] on strings. *)
Fixpoint contains_str (needle hay : string) : bool :=
  prefix needle hay ||
  match hay with
  | EmptyString => false
  | String _ rest => contains_str needle rest
  end.

End Filter.

(** ** The catalogue's JSON records

    A product record as the OData response schema has it; every field may
    be absent. *)

Record Attribute := {
  AttrName : option string;
  AttrValue : option string
}.

Record ContentDateRange := {
  Start : option string
}.

Record RawProduct := {
  Name : option string;
  ContentDate : option ContentDateRange;
  Online : option bool;
  ContentLength : option Z;
  Attributes : option (list Attribute);
  S3Path : option string
}.

(** ** PaginatedFetcher: [search_products] *)

Module Fetch.

Definition ODATA_API_URL : string :=
  "https://catalogue.dataspace.copernicus.eu/odata/v1/Products".

(** The [params] dictionary of the first request. *)
Record Params := {
  p_filter : string;
  p_orderby : string;
  p_top : Z;
  p_expand : string
}.

(** A call [requests.get(url, params=..., timeout=...)]. *)
Record Request := {
  url : string;
  params : option Params;
  timeout : Z
}.

(** The dictionary [response.json()] of a successful request, as far as
    the function reads it: the keys ['value'] and ['@odata.nextLink'],
    either of which may be missing. *)
Record Page := {
  value : option (list RawProduct);
  nextLink : option string
}.

(** What the three statements [requests.get], [raise_for_status] and
    [json] yield together: an exception from any of them, or the parsed
    body.  No effect of the function lies between the three. *)
Inductive Response :=
| Failure (e : exception)
| Body (result : Page).

(** The state the function runs in: the server it talks to, the requests
    it has sent and the messages it has passed to the progress sink. *)
Record World (St : Type) := {
  server : St;
  sent : list Request;
  notes : list string
}.
Arguments server {St} _.
Arguments sent {St} _.
Arguments notes {St} _.

(** A run returns, raises an exception, is still in the loop when the
    fuel given to the model is used up, or is left by what no
    [except Exception] catches: [KeyboardInterrupt], [SystemExit] or
    another class derived from [BaseException] alone, named by its class. *)
Inductive Outcome (A : Type) :=
| Return (a : A)
| Raise (e : exception)
| OutOfFuel
| Escape (name : string).
Arguments Return {A} a.
Arguments Raise {A} e.
Arguments OutOfFuel {A}.
Arguments Escape {A} name.

Definition M (St A : Type) : Type := World St -> Outcome A * World St.

Definition ret {St A} (a : A) : M St A := fun w => (Return a, w).

Definition bind {St A B} (m : M St A) (k : A -> M St B) : M St B :=
  fun w =>
    match m w with
    | (Return a, w') => k a w'
    | (Raise e, w') => (Raise e, w')
    | (OutOfFuel, w') => (OutOfFuel, w')
    | (Escape name, w') => (Escape name, w')
    end.

Definition out_of_fuel {St A} : M St A := fun w => (OutOfFuel, w).

(** [try: body except Exception as e: handler(e)] *)
Definition try_except {St A} (body : M St A) (handler : exception -> M St A)
  : M St A :=
  fun w =>
    match body w with
    | (Raise e, w') => handler e w'
    | r => r
    end.

Notation "x <- m ;; k" := (bind m (fun x => k))
  (at level 61, m at next level, right associativity).
Notation "m ;; k" := (bind m (fun _ => k))
  (at level 61, right associativity).

(** The progress sink is any callable.  Called with a message it returns,
    raises an exception, or raises what [except Exception] does not catch;
    which of these may depend on the messages it was called with before.
    [None] stands for [progress_callback=None]. *)
Inductive Reaction :=
| Returned
| Raised (e : exception)
| Escaped (name : string).

Definition Sink : Type := list string -> string -> Reaction.

(** The world after a call [progress_callback(msg)] under
    [if progress_callback:]: the call is recorded, whether it returns or
    raises. *)
Definition add_note {St} (progress_callback : option Sink) (msg : string)
    (w : World St) : World St :=
  match progress_callback with
  | Some _ => {| server := server w; sent := sent w; notes := notes w ++ [msg] |}
  | None => w
  end.

(** [if progress_callback: progress_callback(msg)] *)
Definition notify {St} (progress_callback : option Sink) (msg : string)
  : M St unit :=
  fun w =>
    match progress_callback with
    | Some sink =>
        match sink (notes w) msg with
        | Returned => (Return tt, add_note progress_callback msg w)
        | Raised e => (Raise e, add_note progress_callback msg w)
        | Escaped name => (Escape name, add_note progress_callback msg w)
        end
    | None => (Return tt, w)
    end.

(** What the sink hears of messages passed on: all of them, or nothing
    when there is no sink. *)
Definition heard (progress_callback : option Sink) (msgs : list string)
  : list string :=
  match progress_callback with
  | Some _ => msgs
  | None => []
  end.

(** A run that has returned or raised. *)
Definition ended {A} (o : Outcome A) : Prop :=
  match o with
  | Return _ | Raise _ => True
  | OutOfFuel | Escape _ => False
  end.

(** A sink that returns from every call. *)
Definition quiet (progress_callback : option Sink) : Prop :=
  forall sink, progress_callback = Some sink ->
  forall history msg, sink history msg = Returned.


(** The world after a request that left the server in state [s']. *)
Definition add_request {St} (req : Request) (s' : St) (w : World St) : World St :=
  {| server := s'; sent := sent w ++ [req]; notes := notes w |}.

(** The three progress messages. *)
Definition found_note (n : nat) : string :=
  ("Found " ++ str_nat n ++ " products in initial query")%string.

Definition fetching_note (page_count total : nat) : string :=
  ("Fetching page " ++ str_nat page_count ++
   "... (total so far: " ++ str_nat total ++ ")")%string.

Definition error_note (e : exception) : string :=
  ("Error: " ++ str_exc e)%string.

(** [result.get('value', [])] *)
Definition get_value (result : Page) : list RawProduct :=
  match value result with
  | Some products => products
  | None => []
  end.

Definition query_request (odata_filter : string) (max_products : option Z)
  : Request :=
  {| url := ODATA_API_URL;
     params := Some {| p_filter := odata_filter;
                       p_orderby := "ContentDate/Start asc";
                       p_top := match truthy_int max_products with
                                | Some k => Z.min k 1000
                                | None => 1000
                                end;
                       p_expand := "Attributes" |};
     timeout := 120 |}.

Definition link_request (next_link : string) : Request :=
  {| url := next_link; params := None; timeout := 120 |}.

(** The page size a request asks for, 0 when it has no parameters. *)
Definition requested_top (req : Request) : Z :=
  match params req with
  | Some ps => p_top ps
  | None => 0%Z
  end.

(** [if max_products: remaining = max_products - len(all_products);
    products = products[:remaining]] *)
Definition capped (max_products : option Z) (have : nat)
    (products : list RawProduct) : list RawProduct :=
  match truthy_int max_products with
  | Some k => slice_to products (k - Z.of_nat have)
  | None => products
  end.

(** [max_products is None or len(all_products) < max_products] *)
Definition below_cap (max_products : option Z) (n : nat) : bool :=
  match max_products with
  | None => true
  | Some k => (Z.of_nat n <? k)%Z
  end.

Section Client.
Context {St : Type}.
(** The server: its answer to a request and its next state. *)
Variable http : Request -> St -> Response * St.

(** [response = requests.get(...); response.raise_for_status();
    result = response.json()] *)
Definition get_json (req : Request) : M St Page :=
  fun w =>
    match http req (server w) with
    | (Failure e, s') => (Raise e, add_request req s' w)
    | (Body result, s') => (Return result, add_request req s' w)
    end.

(** The [while] loop; [fuel] bounds the number of iterations. *)
Fixpoint pagination (fuel : nat) (max_products : option Z)
    (progress_callback : option Sink) (all_products : list RawProduct)
    (next_link : option string) (page_count : nat)
  : M St (list RawProduct) :=
  match truthy_str next_link with
  | Some link =>
      if below_cap max_products (length all_products) then
        match fuel with
        | O => out_of_fuel
        | S fuel' =>
            let page_count := page_count + 1 in
            notify progress_callback
              (fetching_note page_count (length all_products)) ;;
            result <- get_json (link_request link) ;;
            let products := get_value result in
            let products := capped max_products (length all_products) products in
            pagination fuel' max_products progress_callback
              (all_products ++ products) (nextLink result) page_count
        end
      else ret all_products
  | None => ret all_products
  end.

(** The body of the [try] block. *)
Definition search_body (fuel : nat) (odata_filter : string)
    (max_products : option Z) (progress_callback : option Sink)
  : M St (list RawProduct) :=
  result <- get_json (query_request odata_filter max_products) ;;
  let products := get_value result in
  let all_products := [] ++ products in
  notify progress_callback (found_note (length products)) ;;
  pagination fuel max_products progress_callback all_products
    (nextLink result) 1.

(** [search_products(odata_filter, max_products=None,
    progress_callback=None)] *)
Definition search_products (fuel : nat) (odata_filter : string)
    (max_products : option Z) (progress_callback : option Sink)
  : M St (list RawProduct) :=
  try_except
    (search_body fuel odata_filter max_products progress_callback)
    (fun e => notify progress_callback (error_note e) ;; ret []).

(** *** Page sequences

    [follows s next pages]: starting in state [s] with next-page link
    [next], the server answers the request for each link in turn with the
    pages of [pages]; nothing is said about what comes after them. *)
Inductive follows : St -> option string -> list Page -> Prop :=
| follows_nil s next :
    follows s next []
| follows_cons s next link p s' ps :
    truthy_str next = Some link ->
    http (link_request link) s = (Body p, s') ->
    follows s' (nextLink p) ps ->
    follows s next (p :: ps).

(** [serves s req pages]: the answer to [req] is the first of [pages], and
    the others follow from its link. *)
Definition serves (s : St) (req : Request) (pages : list Page) : Prop :=
  match pages with
  | [] => False
  | p :: ps => exists s', http req s = (Body p, s') /\ follows s' (nextLink p) ps
  end.


(** [requested_links s next links]: each of [links] is the non-empty
    next-page link of the answer before it, [next] for the first, and a
    link whose request fails is the last. *)
Fixpoint requested_links (s : St) (next : option string) (links : list string)
  : Prop :=
  match links with
  | [] => True
  | link :: rest =>
      truthy_str next = Some link
      /\ match http (link_request link) s with
         | (Body p, s') => requested_links s' (nextLink p) rest
         | (Failure _, _) => rest = []
         end
  end.

End Client.

(** The last page of a sequence carries no next-page link. *)
Definition ends_without_link (pages : list Page) : Prop :=
  truthy_str (last (map nextLink pages) None) = None.

(** All records of a page sequence, in page order. *)
Definition all_records (pages : list Page) : list RawProduct :=
  concat (map get_value pages).

(** The progress messages a run over [pages] is to emit: the count of the
    first page, then for each further page its number (from 2) and the
    number of records of the pages before it. *)
Definition progress_notes (pages : list Page) : list string :=
  found_note (length (get_value (hd {| value := None; nextLink := None |} pages)))
  :: map (fun i => fetching_note (i + 2)
                     (length (all_records (firstn (i + 1) pages))))
         (seq 0 (length pages - 1)).

(** Messages of the error handler. *)
Definition is_error_note (msg : string) : bool := prefix "Error: " msg.


(** A sink that returns at least from the calls with an error message. *)
Definition accepts_errors (progress_callback : option Sink) : Prop :=
  forall sink, progress_callback = Some sink ->
  forall history msg, is_error_note msg = true -> sink history msg = Returned.

End Fetch.

(** ** ResultNormalizer: [extract_product_info] *)

Module Normalize.

(** A computation that returns a value or raises. *)
Inductive result (A : Type) :=
| Returns (a : A)
| Raises (e : exception).
Arguments Returns {A} a.
Arguments Raises {A} e.

Definition and_then {A B} (m : result A) (k : A -> result B) : result B :=
  match m with
  | Returns a => k a
  | Raises e => Raises e
  end.

Notation "x <- m ;; k" := (and_then m (fun x => k))
  (at level 61, m at next level, right associativity).

(** *** [datetime]

    A [datetime] object as far as ordering reads it: the instant its
    calendar and clock fields spell, in microseconds since
    0001-01-01T00:00:00, and its offset from UTC in microseconds when it
    has a time zone.  An object without a time zone is naive, one with a
    time zone is aware. *)
Record datetime := {
  ticks : Z;
  utcoffset : option Z
}.

(** [datetime.min], a naive object. *)
Definition datetime_min : datetime := {| ticks := 0; utcoffset := None |}.

(** Has the object a time zone? *)
Definition aware (d : datetime) : bool :=
  match utcoffset d with
  | Some _ => true
  | None => false
  end.

(** The number two objects of one kind are ordered by. *)
Definition instant (d : datetime) : Z :=
  match utcoffset d with
  | Some off => (ticks d - off)%Z
  | None => ticks d
  end.

Definition naive_vs_aware : exception :=
  TypeError "can't compare offset-naive and offset-aware datetimes".

(** [a < b] on [datetime] objects: naive objects compare by their fields,
    aware objects by their instant in UTC, and a naive one against an
    aware one is a [TypeError]. *)
Definition datetime_lt (a b : datetime) : result bool :=
  match utcoffset a, utcoffset b with
  | None, None => Returns (ticks a <? ticks b)%Z
  | Some oa, Some ob => Returns (ticks a - oa <? ticks b - ob)%Z
  | _, _ => Raises naive_vs_aware
  end.

(** *** [list.sort(key=...)]

    Python's sort is stable and compares keys with [<] only.  It is
    modelled by a stable insertion sort: the sorted list of a run without
    exception does not depend on the algorithm, and neither does whether a
    run over naive and aware keys raises, since a sort cannot finish
    without comparing a key of one kind with a key of the other. *)
Section Sort.
Context {A : Type} (key : A -> datetime).

(** [x] goes before the first item whose key is greater than its own. *)
Fixpoint insert_by_key (x : A) (sorted : list A) : result (list A) :=
  match sorted with
  | [] => Returns [x]
  | y :: rest =>
      b <- datetime_lt (key x) (key y) ;;
      if b then Returns (x :: y :: rest)
      else r <- insert_by_key x rest ;; Returns (y :: r)
  end.

Fixpoint sort_into (l sorted : list A) : result (list A) :=
  match l with
  | [] => Returns sorted
  | x :: l' => s <- insert_by_key x sorted ;; sort_into l' s
  end.

Definition sort_by_key (l : list A) : result (list A) := sort_into l [].

(** Ascending order of keys of one kind, and the items of a given key. *)
Definition key_le (a b : A) : Prop := (instant (key a) <= instant (key b))%Z.

Definition has_instant (t : Z) (a : A) : bool := (instant (key a) =? t)%Z.

End Sort.

(** *** Sizes

    [round(size / (1024 * 1024), 2)] on an integer [size].  The division
    is in binary64: its result is the float nearest to the quotient,
    which, the divisor being a power of two, is the float nearest to
    [size] divided by 2^20.  An integer below 2^53 in magnitude is a float
    itself; a larger one is rounded to 53 significant bits, ties going to
    the even neighbour ([float_of_int]).  [round] then yields the float
    nearest to the decimal with two places that is nearest to that
    quotient, ties going to the even neighbour again.  The model keeps
    that decimal, as a rational with denominator 100.  Only the precision
    of binary64 is modelled, not its exponent range: byte counts from
    2^1044 on, where the division raises [OverflowError], are outside the
    model. *)
Definition round_half_even (num den : Z) : Z :=
  let q := (num / den)%Z in
  let r := (num mod den)%Z in
  if (2 * r <? den)%Z then q
  else if (den <? 2 * r)%Z then (q + 1)%Z
  else if Z.even q then q else (q + 1)%Z.

(** The float nearest to an integer, as an integer. *)
Definition float_of_int (z : Z) : Z :=
  let a := Z.abs z in
  if (a <? 2 ^ 53)%Z then z
  else
    let ulp := (2 ^ (Z.log2 a - 52))%Z in
    (Z.sgn z * (round_half_even a ulp * ulp))%Z.

Definition round2_mb (size : Z) : Q :=
  Qmake (round_half_even (float_of_int size * 100) (1024 * 1024)) 100.

(** *** The product summary *)

Record ProductSummary := {
  product_name : string;
  acquisition_date : option datetime;
  datetime_str : string;
  online : bool;
  size_bytes : Z;
  size_mb : Q;
  s3_path : option string
}.

(** [s.replace('Z', '+00:00')] *)
Fixpoint replace_Z (s : string) : string :=
  match s with
  | EmptyString => EmptyString
  | String c rest =>
      if (c =? "Z")%char then ("+00:00" ++ replace_Z rest)%string
      else String c (replace_Z rest)
  end.

(** [content_date = product.get('ContentDate', {});
    start_str = content_date.get('Start', '')] *)
Definition start_str (product : RawProduct) : string :=
  match ContentDate product with
  | Some content_date =>
      match Start content_date with
      | Some s => s
      | None => EmptyString
      end
  | None => EmptyString
  end.

(** The [for attr in product['Attributes']] loop with its [break]. *)
Fixpoint scan_attributes (attrs : list Attribute) (s3_path : option string)
  : option string :=
  match attrs with
  | [] => s3_path
  | attr :: rest =>
      match AttrName attr with
      | Some n => if (n =? "S3Path")%string then AttrValue attr
                  else scan_attributes rest s3_path
      | None => scan_attributes rest s3_path
      end
  end.

(** The two statements that set [s3_path]. *)
Definition resolve_s3_path (product : RawProduct) : option string :=
  let s3_path :=
    match Attributes product with
    | Some (attr :: rest) => scan_attributes (attr :: rest) None
    | _ => None
    end in
  match truthy_str s3_path, S3Path product with
  | None, Some top => Some top
  | _, _ => s3_path
  end.

(** [round(size / (1024 * 1024), 2) if size else 0] *)
Definition size_mb_of (size : Z) : Q :=
  if (size =? 0)%Z then 0%Q else round2_mb size.

Section Extract.
(** [datetime.fromisoformat]: the object a string parses to, or [None]
    where it raises [ValueError]. *)
Variable fromisoformat : string -> option datetime.

(** The body of the [for product in products] loop: the dictionary it
    appends. *)
Definition product_entry (product : RawProduct) : result ProductSummary :=
  let product_name :=
    match Name product with Some n => n | None => EmptyString end in
  acquisition_date <-
    match truthy_str (Some (start_str product)) with
    | Some s =>
        match fromisoformat (replace_Z s) with
        | Some d => Returns (Some d)
        | None =>
            Raises (ValueError ("Invalid isoformat string: '" ++ replace_Z s ++ "'"))
        end
    | None => Returns None
    end ;;
  let size := match ContentLength product with Some n => n | None => 0%Z end in
  Returns {| product_name := product_name;
             acquisition_date := acquisition_date;
             datetime_str := start_str product;
             online := match Online product with Some b => b | None => false end;
             size_bytes := size;
             size_mb := size_mb_of size;
             s3_path := resolve_s3_path product |}.

Fixpoint product_entries (products : list RawProduct)
  : result (list ProductSummary) :=
  match products with
  | [] => Returns []
  | product :: rest =>
      e <- product_entry product ;;
      es <- product_entries rest ;;
      Returns (e :: es)
  end.

(** The sort key: [x['acquisition_date'] if x['acquisition_date'] else
    datetime.min]. *)
Definition sort_key (x : ProductSummary) : datetime :=
  match acquisition_date x with
  | Some d => d
  | None => datetime_min
  end.

(** [extract_product_info(products)] *)
Definition extract_product_info (products : list RawProduct)
  : result (list ProductSummary) :=
  product_list <- product_entries products ;;
  sort_by_key sort_key product_list.

End Extract.

(** *** The storage path as the specification words it

    The value of the first attribute named [S3Path] when that value is a
    non-empty string; else the record's own [S3Path] field when it has
    one; else what the attribute held (an empty string or nothing). *)
Definition first_s3path_attribute (product : RawProduct) : option Attribute :=
  match Attributes product with
  | Some attrs =>
      find (fun a => match AttrName a with
                     | Some n => (n =? "S3Path")%string
                     | None => false
                     end) attrs
  | None => None
  end.

Definition storage_path (product : RawProduct) : option string :=
  match first_s3path_attribute product with
  | Some a =>
      match truthy_str (AttrValue a) with
      | Some v => Some v
      | None =>
          match S3Path product with
          | Some top => Some top
          | None => AttrValue a
          end
      end
  | None => S3Path product
  end.

End Normalize.

(** ** The results tab: preview and the two download formats

    The module-level code under [with tab2:] that turns the list kept from
    [extract_product_info] into the preview table and the two text
    files. *)

Module Results.
Import Normalize.

(** ["\n"] *)
Definition newline_char : ascii := ascii_of_nat 10.
Definition newline : string := String newline_char EmptyString.

(** [s[:n]] for a count [n] *)
Fixpoint str_take (n : nat) (s : string) : string :=
  match n, s with
  | S n', String c rest => String c (str_take n' rest)
  | _, _ => EmptyString
  end.

(** [[p['s3_path'] for p in products if p.get('s3_path')]] *)
Definition truthy_paths (paths : list (option string)) : list string :=
  flat_map (fun path => match truthy_str path with
                        | Some t => [t]
                        | None => []
                        end) paths.

Definition paths_of (products : list ProductSummary) : list string :=
  truthy_paths (map s3_path products).

(** [paths_content = "\n".join([...])] *)
Definition paths_content (products : list ProductSummary) : string :=
  String.concat newline (paths_of products).

(** [text.split("\n")], what reads the file back line by line. *)
Fixpoint split_on (c : ascii) (text : string) : list string :=
  match text with
  | EmptyString => [EmptyString]
  | String a rest =>
      if (a =? c)%char then EmptyString :: split_on c rest
      else match split_on c rest with
           | line :: lines => String a line :: lines
           | [] => [String a EmptyString]
           end
  end.

(** [c in s] for a character *)
Fixpoint has_char (c : ascii) (s : string) : bool :=
  match s with
  | EmptyString => false
  | String a rest => (a =? c)%char || has_char c rest
  end.

(** [p['product_name'][:60] + '...' if len(p['product_name']) > 60
    else p['product_name']]; names are taken to be ASCII, as product
    names are, so that characters and bytes agree. *)
Definition preview_name (product_name : string) : string :=
  if (60 <? String.length product_name)%nat
  then (str_take 60 product_name ++ "...")%string
  else product_name.

Section Formats.
(** [d.strftime('%Y-%m-%d')], [d.strftime('%Y-%m-%d %H:%M:%S')] and the
    text of a size in an f-string. *)
Variable strftime_day : datetime -> string.
Variable strftime_second : datetime -> string.
Variable str_size : Q -> string.

(** A row of [preview_data]; the two marks of the last column are kept as
    a flag. *)
Record PreviewRow := {
  row_no : nat;
  row_name : string;
  row_date : string;
  row_size : Q;
  row_online : bool
}.

Definition preview_row (i : nat) (p : ProductSummary) : PreviewRow :=
  {| row_no := i;
     row_name := preview_name (product_name p);
     row_date := match acquisition_date p with
                 | Some d => strftime_day d
                 | None => "N/A"
                 end;
     row_size := size_mb p;
     row_online := online p |}.

(** [for i, p in enumerate(l, i0)] building a list. *)
Fixpoint enumerate_from {A B} (f : nat -> A -> B) (i : nat) (l : list A) : list B :=
  match l with
  | [] => []
  | x :: rest => f i x :: enumerate_from f (S i) rest
  end.

(** [for i, p in enumerate(products[:50], 1): preview_data.append(...)] *)
Definition preview_data (products : list ProductSummary) : list PreviewRow :=
  enumerate_from preview_row 1 (slice_to products 50).

(** The lines one product adds to [detailed_lines]. *)
Definition detailed_block (i : nat) (p : ProductSummary) : list string :=
  let date_str := match acquisition_date p with
                  | Some d => strftime_second d
                  | None => "N/A"
                  end in
  [ (str_nat i ++ ". " ++ product_name p)%string;
    ("   Date: " ++ date_str)%string;
    ("   Size: " ++ str_size (size_mb p) ++ " MB")%string ]
  ++ match truthy_str (s3_path p) with
     | Some path => [ ("   Path: " ++ path)%string ]
     | None => []
     end
  ++ [ EmptyString ].

(** [for i, p in enumerate(products, 1): detailed_lines.append(...) ...] *)
Definition detailed_lines (products : list ProductSummary) : list string :=
  concat (enumerate_from detailed_block 1 products).

Definition detailed_content (products : list ProductSummary) : string :=
  String.concat newline (detailed_lines products).

End Formats.

End Results.

(** ** Sample inputs *)

Module Samples.
Import Filter.
#[local] Open Scope string_scope.

(** Coordinates already formatted, [str] being the identity. *)
Definition bolzano : BBox string :=
  {| west := "11.0"; south := "46.0"; east := "12.0"; north := "47.0" |}.

Definition sentinel2_l2a : ProductConfig :=
  {| name := "Sentinel-2 L2A"; collection := "SENTINEL-2";
     product_type := "S2MSI2A"; instrument := "MSI";
     description := "MSI Level-2A Bottom of Atmosphere Reflectance";
     requires_tile := true |}.

(** A Sentinel-2 product whose configuration does not ask for a tile. *)
Definition sentinel2_untiled : ProductConfig :=
  {| name := "Sentinel-2 L1C"; collection := "SENTINEL-2";
     product_type := "S2MSI1C"; instrument := "MSI";
     description := "MSI Level-1C Top of Atmosphere Reflectance";
     requires_tile := false |}.


(** Product records told apart by name only. *)
Definition product (n : string) : RawProduct :=
  {| Name := Some n; ContentDate := None; Online := None;
     ContentLength := None; Attributes := None; S3Path := None |}.

(** A server that plays a script: each request, whatever it asks, gets the
    next answer of the script; past its end every request fails. *)
Definition scripted (req : Fetch.Request) (script : list Fetch.Response)
  : Fetch.Response * list Fetch.Response :=
  match script with
  | r :: rest => (r, rest)
  | [] => (Fetch.Failure (RequestError "connection refused"), [])
  end.

(** A server whose every page holds one record and links to a next page:
    a chain of pages without end. *)
Definition endless (req : Fetch.Request) (n : nat) : Fetch.Response * nat :=
  (Fetch.Body {| Fetch.value := Some [product (str_nat n)];
                 Fetch.nextLink := Some "https://catalogue.example/next" |},
   S n).

Definition page (names : list string) (link : option string) : Fetch.Page :=
  {| Fetch.value := Some (map product names); Fetch.nextLink := link |}.

Definition three_pages : list Fetch.Page :=
  [ page ["a"; "b"] (Some "https://catalogue.example/p2");
    page ["c"; "d"] (Some "https://catalogue.example/p3");
    page ["e"] None ].

Definition start {St} (s : St) : Fetch.World St :=
  {| Fetch.server := s; Fetch.sent := []; Fetch.notes := [] |}.

(** A sink that takes every message, one whose every call raises, and one
    that stops the script at the first message. *)
Definition recorder : Fetch.Sink := fun _ _ => Fetch.Returned.


Definition stopping_sink : Fetch.Sink :=
  fun history _ =>
    match history with
    | [] => Fetch.Escaped "SystemExit"
    | _ :: _ => Fetch.Returned
    end.

(** *** A parser for the examples

    [datetime.fromisoformat] on the strings of the forms [YYYY-MM-DD] and
    [YYYY-MM-DD?HH:MM:SS], the latter with an optional fraction of three
    or six digits and an optional offset [+HH:MM] or [-HH:MM]; every other
    string is rejected.  The theorems hold for any parser; this one
    serves the examples, whose strings it reads as Python does. *)

Definition digit (c : ascii) : option Z :=
  let n := nat_of_ascii c in
  if (48 <=? n)%nat && (n <=? 57)%nat then Some (Z.of_nat (n - 48)) else None.

Fixpoint number (cs : list ascii) (acc : Z) : option Z :=
  match cs with
  | [] => Some acc
  | c :: rest =>
      match digit c with
      | Some d => number rest (10 * acc + d)%Z
      | None => None
      end
  end.

Definition is_leap (y : Z) : bool :=
  ((y mod 4 =? 0) && (negb (y mod 100 =? 0) || (y mod 400 =? 0)))%Z.

Definition days_in_month (y m : Z) : Z :=
  if (m =? 2)%Z then (if is_leap y then 29 else 28)%Z
  else if ((m =? 4) || (m =? 6) || (m =? 9) || (m =? 11))%Z then 30%Z
  else 31%Z.

Definition days_before_year (y : Z) : Z :=
  let p := (y - 1)%Z in (p * 365 + p / 4 - p / 100 + p / 400)%Z.

Fixpoint days_before_month (y : Z) (m : nat) : Z :=
  match m with
  | O => 0%Z
  | S m' => (days_before_month y m' + days_in_month y (Z.of_nat m))%Z
  end.

(** Microseconds from 0001-01-01T00:00:00 to the given fields, when they
    are a date and a time of day. *)
Definition ticks_of (y mo d h mi sec us : Z) : option Z :=
  if ((1 <=? y) && (y <=? 9999) && (1 <=? mo) && (mo <=? 12)
      && (1 <=? d) && (d <=? days_in_month y mo)
      && (h <? 24) && (mi <? 60) && (sec <? 60))%Z
  then Some (((((days_before_year y + days_before_month y (Z.to_nat (mo - 1))
                + (d - 1)) * 24 + h) * 60 + mi) * 60 + sec) * 1000000 + us)%Z
  else None.

Definition parse_offset (cs : list ascii) : option (option Z) :=
  match cs with
  | [] => Some None
  | sign :: h1 :: h2 :: ":"%char :: m1 :: m2 :: [] =>
      match number [h1; h2] 0, number [m1; m2] 0 with
      | Some h, Some m =>
          if ((h <? 24) && (m <? 60))%Z then
            let off := ((h * 60 + m) * 60 * 1000000)%Z in
            if (sign =? "+")%char then Some (Some off)
            else if (sign =? "-")%char then Some (Some (- off)%Z)
            else None
          else None
      | _, _ => None
      end
  | _ => None
  end.

Definition parse_fraction (cs : list ascii) : option (Z * list ascii) :=
  match cs with
  | "."%char :: f1 :: f2 :: f3 :: rest =>
      match rest with
      | f4 :: f5 :: f6 :: rest' =>
          match number [f1; f2; f3; f4; f5; f6] 0 with
          | Some us => Some (us, rest')
          | None =>
              match number [f1; f2; f3] 0 with
              | Some ms => Some ((ms * 1000)%Z, rest)
              | None => None
              end
          end
      | _ =>
          match number [f1; f2; f3] 0 with
          | Some ms => Some ((ms * 1000)%Z, rest)
          | None => None
          end
      end
  | "."%char :: _ => None
  | _ => Some (0%Z, cs)
  end.

Definition fromisoformat (s : string) : option Normalize.datetime :=
  match list_ascii_of_string s with
  | y1 :: y2 :: y3 :: y4 :: "-"%char :: mo1 :: mo2 :: "-"%char :: d1 :: d2 :: rest =>
      match number [y1; y2; y3; y4] 0, number [mo1; mo2] 0, number [d1; d2] 0 with
      | Some y, Some mo, Some d =>
          match rest with
          | [] =>
              match ticks_of y mo d 0 0 0 0 with
              | Some t => Some {| Normalize.ticks := t; Normalize.utcoffset := None |}
              | None => None
              end
          | _ :: h1 :: h2 :: ":"%char :: mi1 :: mi2 :: ":"%char :: s1 :: s2 :: rest' =>
              match number [h1; h2] 0, number [mi1; mi2] 0, number [s1; s2] 0,
                    parse_fraction rest' with
              | Some h, Some mi, Some sec, Some (us, tz) =>
                  match ticks_of y mo d h mi sec us, parse_offset tz with
                  | Some t, Some off =>
                      Some {| Normalize.ticks := t; Normalize.utcoffset := off |}
                  | _, _ => None
                  end
              | _, _, _, _ => None
              end
          | _ => None
          end
      | _, _, _ => None
      end
  | _ => None
  end.

(** Records for the normaliser. *)
Definition dated (n : string) (start : option string) : RawProduct :=
  {| Name := Some n;
     ContentDate := match start with
                    | Some s => Some {| Start := Some s |}
                    | None => None
                    end;
     Online := Some true; ContentLength := None; Attributes := None;
     S3Path := None |}.

Definition sized (n : string) (bytes : option Z) : RawProduct :=
  {| Name := Some n; ContentDate := None; Online := None;
     ContentLength := bytes; Attributes := None; S3Path := None |}.

Definition stored (attrs : option (list Attribute)) (top : option string)
  : RawProduct :=
  {| Name := Some "S2A_MSIL2A"; ContentDate := None; Online := None;
     ContentLength := None; Attributes := attrs; S3Path := top |}.

(** A summary as the results tab holds it. *)
Definition summary (n : string) (path : option string) : Normalize.ProductSummary :=
  {| Normalize.product_name := n;
     Normalize.acquisition_date := None;
     Normalize.datetime_str := EmptyString;
     Normalize.online := false;
     Normalize.size_bytes := 0%Z;
     Normalize.size_mb := 0%Q;
     Normalize.s3_path := path |}.

Definition s3path_attribute (path : string) : Attribute :=
  {| AttrName := Some "S3Path"; AttrValue := Some path |}.

End Samples.

(* ================================================================== *)
(** * Part II: properties *)
(* ================================================================== *)

(** ** The filter *)

Section FilterProperties.
Import Filter.
#[local] Open Scope string_scope.
Context {number : Type} (str : number -> string).

Lemma append_assoc (a b c : string) : (a ++ b) ++ c = a ++ (b ++ c).
Proof. induction a as [|x a IH]; simpl; [reflexivity | now rewrite IH]. Qed.

(** The filter string is the clause list joined by [" and "]. *)
Lemma build_odata_filter_clauses config bbox start_date end_date tile :
  build_odata_filter str config bbox start_date end_date tile
  = String.concat " and "
      (map snd (filter_clauses str config bbox start_date end_date tile)).
Proof.
  unfold build_odata_filter, filter_clauses.
  destruct (collection config =? "SENTINEL-2");
    [destruct (truthy_str tile)|];
    cbn [map snd app String.concat];
    repeat rewrite append_assoc; reflexivity.
Qed.

Lemma truthy_str_spec (s : option string) (t : string) :
  truthy_str s = Some t <-> s = Some t /\ t <> EmptyString.
Proof.
  destruct s as [[|c r]|]; simpl; split.
  - discriminate.
  - intros [E H]. inversion E; subst. now elim H.
  - intros E; inversion E; subst. split; [reflexivity | discriminate].
  - intros [E _]. exact E.
  - discriminate.
  - intros [E _]. discriminate.
Qed.

(** In the table of supported products the tile flag is set exactly on
    the products of the SENTINEL-2 collection. *)
Lemma product_configs_flag_is_collection :
  Forall (fun kc => requires_tile (snd kc) = (collection (snd kc) =? "SENTINEL-2"))
         PRODUCT_CONFIGS.
Proof. repeat constructor. Qed.

(** When no tile clause is called for, the tile argument does not reach
    the filter. *)
Lemma build_odata_filter_without_tile config bbox start_date end_date tile :
  collection config <> "SENTINEL-2" \/ truthy_str tile = None ->
  build_odata_filter str config bbox start_date end_date tile
  = build_odata_filter str config bbox start_date end_date None.
Proof.
  unfold build_odata_filter. intros [H|H].
  - apply String.eqb_neq in H. rewrite H. reflexivity.
  - rewrite H. reflexivity.
Qed.

(** C4 (as amended): the filter is its clauses joined, and the clause
    [contains(Name,'<tile>')] built from the tile argument is among them
    if and only if the configuration's collection is SENTINEL-2 and a
    non-empty tile string was supplied; the [requires_tile] flag is not
    consulted. *)
Theorem tile_clause_iff_sentinel2_and_tile
    config bbox start_date end_date tile (c : string) :
  build_odata_filter str config bbox start_date end_date tile
  = String.concat " and "
      (map snd (filter_clauses str config bbox start_date end_date tile))
  /\ (In (tile_clause, c) (filter_clauses str config bbox start_date end_date tile)
      <-> collection config = "SENTINEL-2"
          /\ exists t, tile = Some t /\ t <> EmptyString
                       /\ c = "contains(Name,'" ++ t ++ "')").
Proof.
  split; [apply build_odata_filter_clauses|].
  unfold filter_clauses.
  destruct (String.eqb_spec (collection config) "SENTINEL-2") as [E|E].
  - destruct (truthy_str tile) as [t|] eqn:T.
    + apply truthy_str_spec in T. destruct T as [-> Ht]. split.
      * intros H. simpl in H.
        destruct H as [H|[H|[H|[H|[H|[]]]]]]; try discriminate.
        inversion H; subst. split; [exact E|]. exists t. repeat split; auto.
      * intros [_ [t' [Et [_ ->]]]]. inversion Et; subst.
        simpl. right. right. left. reflexivity.
    + split.
      * intros H. simpl in H.
        destruct H as [H|[H|[H|[H|[]]]]]; discriminate.
      * intros [_ [t [Et [Ht _]]]].
        assert (truthy_str tile = Some t) as T' by (apply truthy_str_spec; auto).
        congruence.
  - split.
    + intros H. simpl in H.
      destruct H as [H|[H|[H|[H|[H|[]]]]]]; discriminate.
    + intros [E' _]. contradiction.
Qed.

(** For the products of [PRODUCT_CONFIGS] the amended condition and the
    flag agree. *)
Lemma tile_clause_on_supported_products
    key config bbox start_date end_date tile :
  In (key, config) PRODUCT_CONFIGS ->
  has_tile_clause (filter_clauses str config bbox start_date end_date tile) = true
  <-> requires_tile config = true /\ truthy_str tile <> None.
Proof.
  intros Hin. unfold filter_clauses, has_tile_clause.
  simpl in Hin.
  destruct Hin as [H|[H|[H|[H|[]]]]]; inversion H; subst; cbn;
    destruct (truthy_str tile); cbn; split; intros; try discriminate;
    try (split; [reflexivity|discriminate]); try reflexivity;
    destruct H0 as [? ?]; try discriminate; congruence.
Qed.

(** C8: the filter is the clause list joined by [" and "], and the
    clause list is the collection clause, then the one or two clauses of
    the type/instrument group (a tile clause can only stand there), then
    the spatial clause, then the temporal clause. *)
Theorem filter_clause_order config bbox start_date end_date tile :
  let clauses := filter_clauses str config bbox start_date end_date tile in
  build_odata_filter str config bbox start_date end_date tile
    = String.concat " and " (map snd clauses)
  /\ exists mid,
      clauses = ((collection_clause, collection_filter config) :: mid
                 ++ [ (spatial_clause, spatial_filter str bbox);
                      (temporal_clause, temporal_filter start_date end_date) ])%list
      /\ mid <> []
      /\ Forall (fun cl => group_of (fst cl) = g_type_instrument) mid.
Proof.
  split; [apply build_odata_filter_clauses|].
  unfold filter_clauses.
  destruct (collection config =? "SENTINEL-2");
    [destruct (truthy_str tile) as [t|]|].
  - exists [(type_clause, type_filter config); (tile_clause, tile_filter t)].
    repeat split; [discriminate | repeat constructor].
  - exists [(type_clause, type_filter config)].
    repeat split; [discriminate | repeat constructor].
  - exists [(instrument_clause, instrument_filter config);
            (name_clause, name_filter config)].
    repeat split; [discriminate | repeat constructor].
Qed.

End FilterProperties.

(** The filter of a Sentinel-2 L2A query over tile T32TPS. *)
Lemma build_odata_filter_sentinel2_l2a :
  Filter.build_odata_filter (fun s : string => s)
    Samples.sentinel2_l2a Samples.bolzano "2020-01-01" "2020-01-31" (Some "T32TPS")
  = String.concat " and "
      [ "Collection/Name eq 'SENTINEL-2'";
        "Attributes/OData.CSC.StringAttribute/any(att:att/Name eq 'productType' and att/OData.CSC.StringAttribute/Value eq 'S2MSI2A')";
        "contains(Name,'T32TPS')";
        "OData.CSC.Intersects(area=geography'SRID=4326;POLYGON((11.0 46.0,12.0 46.0,12.0 47.0,11.0 47.0,11.0 46.0))')";
        "ContentDate/Start ge 2020-01-01T00:00:00.000Z and ContentDate/Start le 2020-01-31T23:59:59.999Z" ].
Proof. reflexivity. Qed.

(** C4 (as stated) fails: a SENTINEL-2 configuration whose [requires_tile]
    flag is off still gets the tile clause when a tile is passed; the text
    of the clause is in the filter string. *)
Lemma tile_clause_ignores_requires_tile_flag :
  let clauses := Filter.filter_clauses (fun s : string => s)
                   Samples.sentinel2_untiled Samples.bolzano
                   "2020-01-01" "2020-01-31" (Some "T32TPS") in
  let odata_filter := Filter.build_odata_filter (fun s : string => s)
                   Samples.sentinel2_untiled Samples.bolzano
                   "2020-01-01" "2020-01-31" (Some "T32TPS") in
  In (Filter.tile_clause, "contains(Name,'T32TPS')") clauses
  /\ Filter.contains_str "contains(Name,'T32TPS')" odata_filter = true
  /\ ~ (Filter.requires_tile Samples.sentinel2_untiled = true
        /\ truthy_str (Some "T32TPS") <> None).
Proof.
  cbv zeta. split; [|split].
  - vm_compute. right. right. left. reflexivity.
  - vm_compute. reflexivity.
  - intros [H _]. discriminate H.
Qed.

(** ** The paginated fetch *)

Section FetchProperties.
Import Fetch.
Context {St : Type} (http : Request -> St -> Response * St).

(** One turn of the loop, and its two ways out. *)

Lemma pagination_no_link fuel max_products cb acc next page_count (w : World St) :
  truthy_str next = None ->
  pagination http fuel max_products cb acc next page_count w = (Return acc, w).
Proof. intros H. destruct fuel; simpl; rewrite H; reflexivity. Qed.

Lemma pagination_at_cap fuel max_products cb acc next page_count (w : World St) :
  below_cap max_products (length acc) = false ->
  pagination http fuel max_products cb acc next page_count w = (Return acc, w).
Proof.
  intros H. destruct fuel; simpl; rewrite H; destruct (truthy_str next); reflexivity.
Qed.

(** A call of the sink returns or raises; either way it is recorded. *)
Lemma notify_cases cb msg (w : World St) :
  notify cb msg w = (Return tt, add_note cb msg w)
  \/ (exists e, notify cb msg w = (Raise e, add_note cb msg w))
  \/ (exists name, notify cb msg w = (Escape name, add_note cb msg w)).
Proof.
  unfold notify. destruct cb as [sink|]; [|left; reflexivity].
  destruct (sink (notes w) msg) as [|e|name]; eauto.
Qed.


Lemma notify_quiet cb msg (w : World St) :
  quiet cb -> notify cb msg w = (Return tt, add_note cb msg w).
Proof.
  intros Hq. unfold notify. destruct cb as [sink|]; [|reflexivity].
  rewrite (Hq sink eq_refl). reflexivity.
Qed.

Lemma notify_error cb e (w : World St) :
  accepts_errors cb ->
  notify cb (error_note e) w = (Return tt, add_note cb (error_note e) w).
Proof.
  intros Ha. unfold notify. destruct cb as [sink|]; [|reflexivity].
  rewrite (Ha sink eq_refl); [reflexivity|].
  unfold error_note. destruct (str_exc e); reflexivity.
Qed.

Lemma quiet_accepts_errors cb : quiet cb -> accepts_errors cb.
Proof. intros Hq sink E history msg _. exact (Hq sink E history msg). Qed.


(** One turn of the loop with any sink. *)
Lemma pagination_turn_any fuel max_products cb acc next link page_count
    (w : World St) :
  truthy_str next = Some link ->
  below_cap max_products (length acc) = true ->
  pagination http (S fuel) max_products cb acc next page_count w =
  match notify cb (fetching_note (page_count + 1) (length acc)) w with
  | (Return _, w1) =>
      match http (link_request link) (server w1) with
      | (Failure e, s') => (Raise e, add_request (link_request link) s' w1)
      | (Body result, s') =>
          pagination http fuel max_products cb
            (acc ++ capped max_products (length acc) (get_value result))
            (nextLink result) (page_count + 1)
            (add_request (link_request link) s' w1)
      end
  | (Raise e, w1) => (Raise e, w1)
  | (OutOfFuel, w1) => (OutOfFuel, w1)
  | (Escape name, w1) => (Escape name, w1)
  end.
Proof.
  intros Hl Hc. simpl. rewrite Hl, Hc. unfold bind at 1.
  destruct (notify cb (fetching_note (page_count + 1) (length acc)) w)
    as [[[]|e| |name] w1]; try reflexivity.
  unfold bind, get_json.
  destruct (http (link_request link) (server w1)) as [[e|result] s']; reflexivity.
Qed.

Lemma search_body_any fuel odata_filter max_products cb (w : World St) :
  search_body http fuel odata_filter max_products cb w =
  let req := query_request odata_filter max_products in
  match http req (server w) with
  | (Failure e, s') => (Raise e, add_request req s' w)
  | (Body result, s') =>
      match notify cb (found_note (length (get_value result)))
              (add_request req s' w) with
      | (Return _, w1) =>
          pagination http fuel max_products cb (get_value result)
            (nextLink result) 1 w1
      | (Raise e, w1) => (Raise e, w1)
      | (OutOfFuel, w1) => (OutOfFuel, w1)
      | (Escape name, w1) => (Escape name, w1)
      end
  end.
Proof.
  unfold search_body, get_json. cbv zeta. unfold bind at 1.
  destruct (http (query_request odata_filter max_products) (server w))
    as [[e|result] s']; [reflexivity|].
  unfold bind.
  destruct (notify cb _ _) as [[[]|e| |name] w1]; reflexivity.
Qed.

Lemma search_products_any fuel odata_filter max_products cb (w : World St) :
  search_products http fuel odata_filter max_products cb w =
  match search_body http fuel odata_filter max_products cb w with
  | (Raise e, w1) =>
      match notify cb (error_note e) w1 with
      | (Return _, w2) => (Return [], w2)
      | (Raise e', w2) => (Raise e', w2)
      | (OutOfFuel, w2) => (OutOfFuel, w2)
      | (Escape name, w2) => (Escape name, w2)
      end
  | r => r
  end.
Proof.
  unfold search_products, try_except.
  destruct (search_body http fuel odata_filter max_products cb w) as [[l|e| |name] w1];
    reflexivity.
Qed.

(** The same with a sink that returns from every call. *)
Lemma pagination_turn fuel max_products cb acc next link page_count (w : World St) :
  quiet cb ->
  truthy_str next = Some link ->
  below_cap max_products (length acc) = true ->
  pagination http (S fuel) max_products cb acc next page_count w =
  let w1 := add_note cb (fetching_note (page_count + 1) (length acc)) w in
  match http (link_request link) (server w) with
  | (Failure e, s') => (Raise e, add_request (link_request link) s' w1)
  | (Body result, s') =>
      pagination http fuel max_products cb
        (acc ++ capped max_products (length acc) (get_value result))
        (nextLink result) (page_count + 1)
        (add_request (link_request link) s' w1)
  end.
Proof.
  intros Hq Hl Hc. rewrite (pagination_turn_any _ _ _ _ _ link) by assumption.
  rewrite notify_quiet by assumption. cbv zeta.
  assert (server (add_note cb (fetching_note (page_count + 1) (length acc)) w)
          = server w) as -> by (destruct cb; reflexivity).
  reflexivity.
Qed.

Lemma pagination_out_of_fuel max_products cb acc next link page_count (w : World St) :
  truthy_str next = Some link ->
  below_cap max_products (length acc) = true ->
  pagination http 0 max_products cb acc next page_count w = (OutOfFuel, w).
Proof. intros Hl Hc. simpl. rewrite Hl, Hc. reflexivity. Qed.

Lemma search_body_unfold fuel odata_filter max_products cb (w : World St) :
  quiet cb ->
  search_body http fuel odata_filter max_products cb w =
  let req := query_request odata_filter max_products in
  match http req (server w) with
  | (Failure e, s') => (Raise e, add_request req s' w)
  | (Body result, s') =>
      pagination http fuel max_products cb (get_value result) (nextLink result) 1
        (add_note cb (found_note (length (get_value result)))
           (add_request req s' w))
  end.
Proof.
  intros Hq. rewrite search_body_any. cbv zeta.
  destruct (http (query_request odata_filter max_products) (server w))
    as [[e|result] s']; [reflexivity|].
  rewrite notify_quiet by assumption. reflexivity.
Qed.

Lemma search_products_unfold fuel odata_filter max_products cb (w : World St) :
  accepts_errors cb ->
  search_products http fuel odata_filter max_products cb w =
  match search_body http fuel odata_filter max_products cb w with
  | (Raise e, w1) => (Return [], add_note cb (error_note e) w1)
  | r => r
  end.
Proof.
  intros Ha. rewrite search_products_any.
  destruct (search_body http fuel odata_filter max_products cb w) as [[l|e| |name] w1];
    try reflexivity.
  rewrite notify_error by assumption. reflexivity.
Qed.

(** What a run adds to the messages and to the requests. *)

Lemma add_note_notes cb msg (w : World St) :
  notes (add_note cb msg w) = notes w ++ heard cb [msg].
Proof. destruct cb; simpl; [reflexivity | now rewrite app_nil_r]. Qed.

Lemma add_note_sent cb msg (w : World St) : sent (add_note cb msg w) = sent w.
Proof. destruct cb; reflexivity. Qed.

Lemma add_note_server cb msg (w : World St) : server (add_note cb msg w) = server w.
Proof. destruct cb; reflexivity. Qed.

Lemma fetching_note_no_error n m : is_error_note (fetching_note n m) = false.
Proof. reflexivity. Qed.

Lemma found_note_no_error n : is_error_note (found_note n) = false.
Proof. reflexivity. Qed.





(** *** Runs over a sequence of pages *)

Lemma last_cons {A} (x : A) (l : list A) (d : A) : last (x :: l) d = last l x.
Proof.
  revert x d. induction l as [|y l IH]; intros x d; [reflexivity|].
  change (last (x :: y :: l) d) with (last (y :: l) d).
  rewrite !IH. reflexivity.
Qed.

Lemma all_records_cons p ps : all_records (p :: ps) = get_value p ++ all_records ps.
Proof. reflexivity. Qed.

Lemma capped_none n v : capped None n v = v.
Proof. reflexivity. Qed.

Lemma capped_below (K : Z) n v :
  (Z.of_nat n < K)%Z ->
  capped (Some K) n v = firstn (Z.to_nat K - n) v.
Proof.
  intros H. unfold capped, truthy_int, slice_to.
  destruct (K =? 0)%Z eqn:E; [apply Z.eqb_eq in E; lia|].
  destruct (0 <=? K - Z.of_nat n)%Z eqn:E'; [|apply Z.leb_gt in E'; lia].
  f_equal. lia.
Qed.

Lemma below_cap_true (K : Z) n :
  below_cap (Some K) n = true <-> n < Z.to_nat K.
Proof. unfold below_cap. rewrite Z.ltb_lt. lia. Qed.

Lemma below_cap_false (K : Z) n :
  below_cap (Some K) n = false <-> Z.to_nat K <= n.
Proof. unfold below_cap. rewrite Z.ltb_ge. lia. Qed.

(** Without a cap the loop takes every page of a sequence that ends. *)
Lemma pagination_all_pages : forall ps fuel cb acc next page_count (w : World St),
  quiet cb ->
  follows http (server w) next ps ->
  truthy_str (last (map nextLink ps) next) = None ->
  length ps <= fuel ->
  exists w',
    pagination http fuel None cb acc next page_count w
    = (Return (acc ++ all_records ps), w')
    /\ notes w' = notes w ++
         heard cb
           (map (fun i => fetching_note (page_count + 1 + i)
                            (length acc + length (all_records (firstn i ps))))
                (seq 0 (length ps)))
    /\ length (sent w') = length (sent w) + length ps.
Proof.
  induction ps as [|p ps IH]; intros fuel cb acc next page_count w Hq F L Hfuel.
  - simpl in L. rewrite pagination_no_link by assumption.
    exists w. split; [unfold all_records; simpl; now rewrite app_nil_r|].
    split; [destruct cb; simpl; now rewrite app_nil_r | simpl; lia].
  - inversion F as [|s0 n0 link p0 s' ps0 Hl Hr F']; subst.
    destruct fuel as [|fuel]; [simpl in Hfuel; lia|].
    rewrite (pagination_turn _ _ _ _ _ link) by (assumption || reflexivity).
    cbv zeta. rewrite Hr, capped_none.
    simpl map in L. rewrite last_cons in L.
    destruct (IH fuel cb (acc ++ get_value p) (nextLink p) (page_count + 1)
                (add_request (link_request link) s'
                   (add_note cb (fetching_note (page_count + 1) (length acc)) w)))
      as [w' [R [N Q]]]; [exact Hq | exact F' | exact L | simpl in Hfuel; lia |].
    exists w'. split; [|split].
    + rewrite R, all_records_cons, app_assoc. reflexivity.
    + rewrite N. simpl notes. rewrite add_note_notes, <- app_assoc. f_equal.
      destruct cb; [|reflexivity].
      cbn [heard length]. rewrite <- cons_seq, <- seq_shift. cbn [map app].
      rewrite map_map. f_equal.
      * f_equal; [lia|]. unfold all_records; simpl; lia.
      * apply map_ext. intros i. f_equal; [lia|].
        cbn [firstn]. rewrite all_records_cons, !length_app. lia.
    + rewrite Q. simpl. rewrite add_note_sent, length_app. simpl. lia.
Qed.

(** C3: with no cap and pages that end, the function returns the records
    of all pages in page order; with a sink it emits the message of the
    first page and then one message per further page, numbered from 2,
    each with the count of records fetched so far: N-1 messages after
    the first for N pages.  It sends one request per page.  The sink is
    one that returns from every call. *)
Theorem search_products_returns_all_pages
    fuel odata_filter cb (w : World St) pages :
  quiet cb ->
  serves http (server w) (query_request odata_filter None) pages ->
  ends_without_link pages ->
  length pages - 1 <= fuel ->
  exists w',
    search_products http fuel odata_filter None cb w
    = (Return (all_records pages), w')
    /\ notes w' = notes w ++ heard cb (progress_notes pages)
    /\ length (progress_notes pages) = 1 + (length pages - 1)
    /\ length (sent w') = length (sent w) + length pages.
Proof.
  intros Hq Sv E Hfuel. destruct pages as [|p ps]; [contradiction|].
  destruct Sv as [s' [Hr F]].
  unfold ends_without_link in E. simpl map in E. rewrite last_cons in E.
  rewrite search_products_unfold, search_body_unfold
    by auto using quiet_accepts_errors.
  cbv zeta. rewrite Hr.
  destruct (pagination_all_pages ps fuel cb (get_value p) (nextLink p) 1
              (add_note cb (found_note (length (get_value p)))
                 (add_request (query_request odata_filter None) s' w)))
    as [w' [R [N Q]]].
  - exact Hq.
  - rewrite add_note_server. exact F.
  - exact E.
  - simpl in Hfuel. lia.
  - rewrite R. exists w'. split; [reflexivity|]. split; [|split].
    + rewrite N, add_note_notes. simpl notes. rewrite <- app_assoc. f_equal.
      destruct cb; [|reflexivity].
      unfold progress_notes. cbn [heard hd app length]. f_equal.
      replace (S (length ps) - 1) with (length ps) by lia.
      apply map_ext. intros i. f_equal; [lia|].
      replace (i + 1) with (S i) by lia.
      cbn [firstn]. rewrite all_records_cons, length_app. reflexivity.
    + unfold progress_notes. cbn [length]. rewrite length_map, length_seq. reflexivity.
    + rewrite Q, add_note_sent. simpl. rewrite length_app. simpl. lia.
Qed.

(** *** Runs under a cap *)

Lemma firstn_app_firstn {A} m (v rest : list A) :
  firstn m (firstn m v ++ rest) = firstn m (v ++ rest).
Proof.
  destruct (Nat.le_gt_cases m (length v)) as [H|H].
  - rewrite !firstn_app, length_firstn.
    replace (m - Nat.min m (length v)) with 0 by lia.
    replace (m - length v) with 0 by lia.
    rewrite firstn_firstn, Nat.min_id. reflexivity.
  - rewrite (firstn_all2 v) by lia. reflexivity.
Qed.

Lemma firstn_cap_step {A} k (acc v rest : list A) :
  length acc <= k ->
  firstn k ((acc ++ firstn (k - length acc) v) ++ rest)
  = firstn k (acc ++ v ++ rest).
Proof.
  intros H. rewrite <- app_assoc, !(firstn_app k acc).
  f_equal. apply firstn_app_firstn.
Qed.

(** Under a cap [K] the loop stops with the first [K] records of what it
    holds and what the pages bring, when that makes [K] records at least. *)
Lemma pagination_cap : forall ps fuel (K : Z) cb acc next page_count (w : World St),
  quiet cb ->
  (1 <= K)%Z ->
  follows http (server w) next ps ->
  length acc <= Z.to_nat K ->
  Z.to_nat K <= length acc + length (all_records ps) ->
  length ps <= fuel ->
  exists w',
    pagination http fuel (Some K) cb acc next page_count w
    = (Return (firstn (Z.to_nat K) (acc ++ all_records ps)), w').
Proof.
  induction ps as [|p ps IH]; intros fuel K cb acc next page_count w Hq HK F La Lt Hfuel.
  - unfold all_records in *. simpl in *. rewrite app_nil_r.
    rewrite pagination_at_cap by (apply below_cap_false; lia).
    exists w. rewrite firstn_all2 by lia. reflexivity.
  - destruct (below_cap (Some K) (length acc)) eqn:Hc.
    + apply below_cap_true in Hc.
      inversion F as [|s0 n0 link p0 s' ps0 Hl Hr F']; subst.
      destruct fuel as [|fuel]; [simpl in Hfuel; lia|].
      rewrite (pagination_turn _ _ _ _ _ link)
        by (try assumption; apply below_cap_true; lia).
      cbv zeta. rewrite Hr, capped_below by lia.
      rewrite all_records_cons, length_app in Lt.
      destruct (IH fuel K cb
                  (acc ++ firstn (Z.to_nat K - length acc) (get_value p))
                  (nextLink p) (page_count + 1)
                  (add_request (link_request link) s'
                     (add_note cb (fetching_note (page_count + 1) (length acc)) w)))
        as [w' R]; try assumption.
      * rewrite length_app, length_firstn. lia.
      * rewrite length_app, length_firstn. lia.
      * simpl in Hfuel. lia.
      * exists w'. rewrite R, all_records_cons.
        rewrite firstn_cap_step by lia. reflexivity.
    + rewrite pagination_at_cap by assumption.
      apply below_cap_false in Hc. exists w.
      rewrite firstn_app, (firstn_all2 acc) by lia.
      replace (Z.to_nat K - length acc) with 0 by lia.
      simpl. now rewrite app_nil_r.
Qed.

(** C2 (as amended): with a cap [K >= 1], pages that hold more than [K]
    records together and a first page of at most [K] records, the function
    returns exactly the first [K] records of the pages in page order: the
    page that crosses the cap is cut at the remaining quota.  The sink,
    when there is one, returns from every call. *)
Theorem search_products_cap
    fuel odata_filter (K : Z) cb (w : World St) p ps :
  quiet cb ->
  (1 <= K)%Z ->
  serves http (server w) (query_request odata_filter (Some K)) (p :: ps) ->
  length (get_value p) <= Z.to_nat K ->
  Z.to_nat K < length (all_records (p :: ps)) ->
  length ps <= fuel ->
  exists w',
    search_products http fuel odata_filter (Some K) cb w
    = (Return (firstn (Z.to_nat K) (all_records (p :: ps))), w')
    /\ length (firstn (Z.to_nat K) (all_records (p :: ps))) = Z.to_nat K.
Proof.
  intros Hq HK [s' [Hr F]] L1 Lt Hfuel.
  rewrite search_products_unfold, search_body_unfold
    by auto using quiet_accepts_errors.
  cbv zeta. rewrite Hr.
  destruct (pagination_cap ps fuel K cb (get_value p) (nextLink p) 1
              (add_note cb (found_note (length (get_value p)))
                 (add_request (query_request odata_filter (Some K)) s' w)))
    as [w' R]; try assumption.
  - rewrite add_note_server. exact F.
  - rewrite all_records_cons, length_app in Lt. lia.
  - rewrite R. exists w'. split; [reflexivity|].
    rewrite length_firstn. lia.
Qed.

(** When every page fetched through a link holds a record, each turn of
    the loop adds a record, so under a cap the loop ends within as many
    turns as records are missing. *)
Lemma pagination_terminates fuel : forall (K : Z) cb acc next page_count (w : World St),
  quiet cb ->
  (1 <= K)%Z ->
  (forall link s p s',
     http (link_request link) s = (Body p, s') -> get_value p <> []) ->
  Z.to_nat K - length acc <= fuel ->
  exists o w' fetched,
    pagination http fuel (Some K) cb acc next page_count w = (o, w')
    /\ ended o
    /\ sent w' = sent w ++ fetched
    /\ length fetched <= Z.to_nat K - length acc.
Proof.
  induction fuel as [|fuel IH]; intros K cb acc next page_count w Hq HK Hne Hfuel.
  - rewrite pagination_at_cap by (apply below_cap_false; lia).
    exists (Return acc), w, []. rewrite app_nil_r.
    repeat split; simpl; lia.
  - destruct (truthy_str next) as [link|] eqn:Hl.
    2:{ rewrite pagination_no_link by assumption.
        exists (Return acc), w, []. rewrite app_nil_r.
        repeat split; simpl; lia. }
    destruct (below_cap (Some K) (length acc)) eqn:Hc.
    2:{ rewrite pagination_at_cap by assumption.
        exists (Return acc), w, []. rewrite app_nil_r.
        repeat split; simpl; lia. }
    rewrite (pagination_turn _ _ _ _ _ link) by assumption. cbv zeta.
    apply below_cap_true in Hc.
    destruct (http (link_request link) (server w)) as [[e|result] s'] eqn:Hr.
    + exists (Raise e), (add_request (link_request link) s'
                (add_note cb (fetching_note (page_count + 1) (length acc)) w)),
             [link_request link].
      simpl. rewrite add_note_sent.
      repeat split; lia.
    + rewrite capped_below by lia.
      assert (1 <= length (firstn (Z.to_nat K - length acc) (get_value result)))
        as Hgrow.
      { rewrite length_firstn. apply Hne in Hr.
        destruct (get_value result); [congruence | simpl; lia]. }
      destruct (IH K cb
                  (acc ++ firstn (Z.to_nat K - length acc) (get_value result))
                  (nextLink result) (page_count + 1)
                  (add_request (link_request link) s'
                     (add_note cb (fetching_note (page_count + 1) (length acc)) w))
                  Hq HK Hne)
        as [o [w' [fetched [R [NO [Q Lf]]]]]].
      * rewrite length_app. lia.
      * exists o, w', (link_request link :: fetched).
        rewrite R. repeat split; [exact NO | |].
        -- rewrite Q. simpl. rewrite add_note_sent, <- app_assoc. reflexivity.
        -- rewrite length_app in Lf. simpl. lia.
Qed.

(** C10: under a cap [K >= 1], if every page fetched through a next-page
    link holds at least one record, the function ends (it returns or, on a
    failed request, reports the error) after at most [K] requests beyond
    the first, however long the chain of links is: [K] turns of fuel are
    enough.  The sink, when there is one, returns from every call. *)
Theorem search_products_terminates_under_cap
    fuel odata_filter (K : Z) cb (w : World St) :
  quiet cb ->
  (1 <= K)%Z ->
  (forall link s p s',
     http (link_request link) s = (Body p, s') -> get_value p <> []) ->
  Z.to_nat K <= fuel ->
  exists l w' fetched,
    search_products http fuel odata_filter (Some K) cb w = (Return l, w')
    /\ sent w' = sent w ++ query_request odata_filter (Some K) :: fetched
    /\ length fetched <= Z.to_nat K.
Proof.
  intros Hq HK Hne Hfuel.
  rewrite search_products_unfold, search_body_unfold
    by auto using quiet_accepts_errors.
  cbv zeta.
  destruct (http (query_request odata_filter (Some K)) (server w))
    as [[e|result] s'] eqn:Hr.
  - exists [], (add_note cb (error_note e)
                  (add_request (query_request odata_filter (Some K)) s' w)), [].
    rewrite add_note_sent. simpl. repeat split. lia.
  - destruct (pagination_terminates fuel K cb (get_value result) (nextLink result) 1
                (add_note cb (found_note (length (get_value result)))
                   (add_request (query_request odata_filter (Some K)) s' w))
                Hq HK Hne)
      as [o [w' [fetched [R [NO [Q Lf]]]]]]; [lia|].
    rewrite R. rewrite add_note_sent in Q. simpl in Q.
    destruct o as [l|e| |name]; [| |elim NO..].
    + exists l, w', fetched. repeat split; [|lia].
      rewrite Q, <- app_assoc. reflexivity.
    + exists [], (add_note cb (error_note e) w'), fetched.
      rewrite add_note_sent. repeat split; [|lia].
      rewrite Q, <- app_assoc. reflexivity.
Qed.

(** *** Failures *)







End FetchProperties.

(** *** The fetch on sample servers *)

(** The recording sink returns from every call. *)
Lemma recorder_quiet : Fetch.quiet (Some Samples.recorder).
Proof. intros sink H history msg. inversion H. reflexivity. Defined.

(** A first page and a failing second request: the records of the first
    page are dropped and the error is the third message. *)
Lemma search_products_drops_fetched_records :
  Fetch.search_products Samples.scripted 5 "f" None (Some Samples.recorder)
    (Samples.start [ Fetch.Body (Samples.page ["a"; "b"] (Some "https://catalogue.example/p2"));
                     Fetch.Failure (RequestError "504 Server Error") ])
  = (Fetch.Return [],
     {| Fetch.server := [];
        Fetch.sent := [ Fetch.query_request "f" None;
                        Fetch.link_request "https://catalogue.example/p2" ];
        Fetch.notes := [ "Found 2 products in initial query";
                         "Fetching page 2... (total so far: 2)";
                         "Error: 504 Server Error" ] |}).
Proof. reflexivity. Qed.



(** Nor does the handler see what is raised outside [Exception]: a sink
    that stops the script at its first message ends the run there. *)
Lemma search_products_left_by_stopping_sink :
  fst (Fetch.search_products Samples.scripted 5 "f" None (Some Samples.stopping_sink)
         (Samples.start (map Fetch.Body Samples.three_pages)))
  = Fetch.Escape "SystemExit".
Proof. reflexivity. Qed.

Lemma three_pages_served odata_filter max_products :
  Fetch.serves Samples.scripted (map Fetch.Body Samples.three_pages)
    (Fetch.query_request odata_filter max_products) Samples.three_pages.
Proof.
  simpl. eexists. split; [reflexivity|].
  eapply Fetch.follows_cons; [reflexivity | reflexivity |].
  eapply Fetch.follows_cons; [reflexivity | reflexivity |].
  apply Fetch.follows_nil.
Defined.

(** C3 on three pages of two, two and one records. *)
Lemma search_products_returns_all_pages_witness :
  exists w',
    Fetch.search_products Samples.scripted 2 "f" None (Some Samples.recorder)
      (Samples.start (map Fetch.Body Samples.three_pages))
    = (Fetch.Return (map Samples.product ["a"; "b"; "c"; "d"; "e"]), w')
    /\ Fetch.notes w' = [] ++ [ "Found 2 products in initial query";
                               "Fetching page 2... (total so far: 2)";
                               "Fetching page 3... (total so far: 4)" ]
    /\ length (Fetch.progress_notes Samples.three_pages) = 1 + (3 - 1)
    /\ length (Fetch.sent w') = 0 + 3.
Proof.
  apply (search_products_returns_all_pages Samples.scripted 2 "f"
           (Some Samples.recorder)
           (Samples.start (map Fetch.Body Samples.three_pages))
           Samples.three_pages).
  - apply recorder_quiet.
  - apply three_pages_served.
  - reflexivity.
  - simpl. lia.
Defined.

(** C2 (as amended) on the same pages with a cap of three: the second
    page is cut after its first record and the third is not fetched. *)
Lemma search_products_cap_witness :
  exists w',
    Fetch.search_products Samples.scripted 2 "f" (Some 3%Z) (Some Samples.recorder)
      (Samples.start (map Fetch.Body Samples.three_pages))
    = (Fetch.Return (map Samples.product ["a"; "b"; "c"]), w')
    /\ length (map Samples.product ["a"; "b"; "c"]) = 3.
Proof.
  apply (search_products_cap Samples.scripted 2 "f" 3%Z (Some Samples.recorder)
           (Samples.start (map Fetch.Body Samples.three_pages))
           (Samples.page ["a"; "b"] (Some "https://catalogue.example/p2"))
           [ Samples.page ["c"; "d"] (Some "https://catalogue.example/p3");
             Samples.page ["e"] None ]).
  - apply recorder_quiet.
  - lia.
  - apply three_pages_served.
  - simpl. lia.
  - simpl. lia.
  - simpl. lia.
Defined.

(** C2 (as stated) fails: the first page is appended as the server sent
    it.  With a cap of one and a first page of two records, both are
    returned. *)
Lemma search_products_first_page_not_capped :
  let pages := [Samples.page ["a"; "b"] None] in
  let w := Samples.start (map Fetch.Body pages) in
  (1 <= 1)%Z
  /\ Fetch.serves Samples.scripted (Fetch.server w)
       (Fetch.query_request "f" (Some 1%Z)) pages
  /\ Z.to_nat 1 < length (Fetch.all_records pages)
  /\ forall fuel,
       Fetch.search_products Samples.scripted fuel "f" (Some 1%Z) (Some Samples.recorder) w
       = (Fetch.Return (map Samples.product ["a"; "b"]),
          {| Fetch.server := [];
             Fetch.sent := [Fetch.query_request "f" (Some 1%Z)];
             Fetch.notes := ["Found 2 products in initial query"] |})
       /\ length (map Samples.product ["a"; "b"]) <> Z.to_nat 1.
Proof.
  cbv zeta. split; [lia|]. split; [|split].
  - simpl. eexists. split; [reflexivity | apply Fetch.follows_nil].
  - simpl. lia.
  - intros fuel. split; [destruct fuel; reflexivity | simpl; lia].
Qed.

(** C10 on a server whose chain of pages never ends, with a cap of three. *)
Lemma search_products_terminates_under_cap_witness :
  exists l w' fetched,
    Fetch.search_products Samples.endless 3 "f" (Some 3%Z) (Some Samples.recorder) (Samples.start 0)
    = (Fetch.Return l, w')
    /\ Fetch.sent w' = [] ++ Fetch.query_request "f" (Some 3%Z) :: fetched
    /\ length fetched <= Z.to_nat 3.
Proof.
  apply (search_products_terminates_under_cap Samples.endless 3 "f" 3%Z
           (Some Samples.recorder) (Samples.start 0)).
  - apply recorder_quiet.
  - lia.
  - intros link s p s' H. inversion H. discriminate.
  - simpl. lia.
Defined.

(** ** The normaliser *)

Section NormalizeProperties.
Import Normalize.
Variable fromisoformat : string -> option datetime.

(** *** Single records *)






Lemma product_entries_length products : forall es,
  product_entries fromisoformat products = Returns es ->
  length es = length products.
Proof.
  induction products as [|p products IH]; simpl; intros es H.
  - inversion H. reflexivity.
  - destruct (product_entry fromisoformat p); simpl in H; [|discriminate].
    destruct (product_entries fromisoformat products); simpl in H; [|discriminate].
    inversion H. simpl. f_equal. now apply IH.
Qed.


(** *** The storage path *)

Lemma scan_attributes_find attrs :
  scan_attributes attrs None =
  match find (fun a => match AttrName a with
                       | Some n => (n =? "S3Path")%string
                       | None => false
                       end) attrs with
  | Some a => AttrValue a
  | None => None
  end.
Proof.
  induction attrs as [|a attrs IH]; simpl; [reflexivity|].
  destruct (AttrName a) as [n|]; [destruct (n =? "S3Path")%string|];
    auto.
Qed.

(** C7 (as amended): the storage path is the value of the first attribute
    named [S3Path] when that value is a non-empty string; otherwise the
    record's own [S3Path] field when present; otherwise what the attribute
    held (an empty string or nothing), null when there is no such
    attribute.  A non-empty attribute value wins over the field. *)
Theorem s3_path_precedence (p : RawProduct) :
  resolve_s3_path p = storage_path p
  /\ (forall e, product_entry fromisoformat p = Returns e ->
                s3_path e = storage_path p)
  /\ (forall a v top,
        first_s3path_attribute p = Some a ->
        truthy_str (AttrValue a) = Some v ->
        S3Path p = Some top ->
        resolve_s3_path p = Some v).
Proof.
  assert (resolve_s3_path p = storage_path p) as R.
  { unfold resolve_s3_path, storage_path, first_s3path_attribute.
    destruct (Attributes p) as [[|a attrs]|].
    - simpl. destruct (S3Path p); reflexivity.
    - rewrite scan_attributes_find.
      destruct (find _ (a :: attrs)) as [a'|].
      + destruct (truthy_str (AttrValue a')) as [v|] eqn:T.
        * destruct (AttrValue a') as [[|c r]|]; simpl in T; inversion T; subst.
          destruct (S3Path p); reflexivity.
        * destruct (S3Path p); reflexivity.
      + simpl. destruct (S3Path p); reflexivity.
    - simpl. destruct (S3Path p); reflexivity. }
  split; [exact R|]. split.
  - intros e H. unfold product_entry in H.
    destruct (truthy_str (Some (start_str p))) as [s|];
      [destruct (fromisoformat (replace_Z s))|]; simpl in H;
      inversion H; subst; simpl; exact R.
  - intros a v top Ha Hv Ht. rewrite R. unfold storage_path.
    rewrite Ha, Hv. reflexivity.
Qed.

(** *** Sizes *)

Lemma round_half_even_nearest num den :
  (0 < den)%Z ->
  let n := round_half_even num den in
  (Z.abs (2 * (num - n * den)) <= den)%Z
  /\ (Z.abs (2 * (num - n * den)) = den -> Z.even n = true)%Z.
Proof.
  intros Hd. cbv zeta. unfold round_half_even.
  pose proof (Z.div_mod num den ltac:(lia)) as E.
  pose proof (Z.mod_pos_bound num den Hd) as B.
  set (q := (num / den)%Z) in *. set (r := (num mod den)%Z) in *.
  destruct (2 * r <? den)%Z eqn:C1.
  - apply Z.ltb_lt in C1. split; [nia | intros H; nia].
  - apply Z.ltb_ge in C1.
    destruct (den <? 2 * r)%Z eqn:C2.
    + apply Z.ltb_lt in C2. split; [nia | intros H; nia].
    + apply Z.ltb_ge in C2. destruct (Z.even q) eqn:Ev.
      * split; [nia | intros _; exact Ev].
      * split; [nia|]. intros _. rewrite Z.even_add, Ev. reflexivity.
Qed.

Lemma float_of_int_exact z : (Z.abs z < 2 ^ 53)%Z -> float_of_int z = z.
Proof.
  intros H. unfold float_of_int.
  destruct (Z.abs z <? 2 ^ 53)%Z eqn:E; [reflexivity|].
  apply Z.ltb_ge in E. lia.
Qed.

(** C9 (as amended): the size in MB of a summary is 0 for a byte count
    that is 0 or absent, and otherwise a decimal with two places, n/100,
    nearest to the binary64 quotient of the byte count by 1,048,576
    (within half a hundredth, an exact half going to the even n).  For a
    byte count below 2^53 in magnitude that quotient is exact, so n/100 is
    nearest to bytes / 1,048,576 itself; 1,572,864 bytes give 1.5. *)
Theorem size_mb_rounds_to_two_places (p : RawProduct) (e : ProductSummary) :
  product_entry fromisoformat p = Returns e ->
  size_bytes e = match ContentLength p with Some n => n | None => 0%Z end
  /\ (size_bytes e = 0%Z -> size_mb e = 0%Q)
  /\ (size_bytes e <> 0%Z ->
      exists n : Z,
        size_mb e = Qmake n 100
        /\ (Z.abs (2 * (float_of_int (size_bytes e) * 100 - n * 1048576))
            <= 1048576)%Z
        /\ (Z.abs (2 * (float_of_int (size_bytes e) * 100 - n * 1048576))
            = 1048576 -> Z.even n = true)%Z)
  /\ (size_bytes e <> 0%Z ->
      (Z.abs (size_bytes e) < 2 ^ 53)%Z ->
      exists n : Z,
        size_mb e = Qmake n 100
        /\ (Z.abs (2 * (size_bytes e * 100 - n * 1048576)) <= 1048576)%Z
        /\ (Z.abs (2 * (size_bytes e * 100 - n * 1048576)) = 1048576
            -> Z.even n = true)%Z)
  /\ (size_bytes e = 1572864%Z -> Qeq (size_mb e) (3 # 2)).
Proof.
  intros H. unfold product_entry in H.
  assert (size_bytes e
          = match ContentLength p with Some n => n | None => 0%Z end
          /\ size_mb e = size_mb_of (size_bytes e)) as [Hb Hm].
  { destruct (truthy_str (Some (start_str p))) as [s|];
      [destruct (fromisoformat (replace_Z s))|]; simpl in H;
      inversion H; subst; clear H; simpl; auto. }
  clear H. rewrite Hm.
  set (size := size_bytes e) in *.
  assert (size <> 0%Z ->
          exists n : Z,
            size_mb_of size = Qmake n 100
            /\ (Z.abs (2 * (float_of_int size * 100 - n * 1048576)) <= 1048576)%Z
            /\ (Z.abs (2 * (float_of_int size * 100 - n * 1048576)) = 1048576
                -> Z.even n = true)%Z) as Near.
  { intros Hn. unfold size_mb_of.
    destruct (size =? 0)%Z eqn:Z0; [apply Z.eqb_eq in Z0; contradiction|].
    exists (round_half_even (float_of_int size * 100) (1024 * 1024)).
    split; [reflexivity|].
    exact (round_half_even_nearest (float_of_int size * 100) 1048576 ltac:(lia)). }
  split; [exact Hb|].
  split; [intros ->; reflexivity|].
  split; [exact Near|].
  split; [|intros ->; reflexivity].
  intros Hn Hs. destruct (Near Hn) as [n N].
  rewrite (float_of_int_exact size Hs) in N. exists n. exact N.
Qed.

End NormalizeProperties.

(** *** The sort *)

Section SortProperties.
Import Normalize.
Context {A : Type} (key : A -> datetime).

Lemma datetime_lt_mixed a b :
  aware a <> aware b -> datetime_lt a b = Raises naive_vs_aware.
Proof.
  unfold datetime_lt, aware.
  destruct (utcoffset a), (utcoffset b); intros H; try reflexivity;
    now elim H.
Qed.

Lemma datetime_lt_same a b :
  aware a = aware b -> exists r, datetime_lt a b = Returns r.
Proof.
  unfold datetime_lt, aware.
  destruct (utcoffset a), (utcoffset b); intros H; try discriminate; eauto.
Qed.

(** Among keys of one kind the insertion goes through and keeps the items. *)
Lemma insert_same_kind k x : forall sorted,
  aware (key x) = k ->
  Forall (fun y => aware (key y) = k) sorted ->
  exists r,
    insert_by_key key x sorted = Returns r
    /\ Forall (fun y => aware (key y) = k) r
    /\ (forall z, In z r <-> z = x \/ In z sorted).
Proof.
  intros sorted Hx. induction sorted as [|y rest IH]; intros Hs.
  - exists [x]. simpl. split; [reflexivity|]. split; [repeat constructor; exact Hx|].
    intros z. intuition (subst; auto).
  - inversion Hs as [|y' rest' Hy Hrest]; subst. simpl.
    destruct (datetime_lt_same (key x) (key y)) as [b ->]; [congruence|].
    simpl. destruct b.
    + exists (x :: y :: rest). split; [reflexivity|]. split; [constructor; auto|].
      intros z. simpl. intuition (subst; auto).
    + destruct (IH Hrest) as [r [-> [Fr Ir]]]. simpl.
      exists (y :: r). split; [reflexivity|]. split; [constructor; auto|].
      intros z. simpl. rewrite Ir. intuition (subst; auto).
Qed.

(** A naive key and an aware key anywhere in the list stop the sort. *)
Lemma sort_into_mixed : forall l sorted k,
  Forall (fun y => aware (key y) = k) sorted ->
  (exists a b, In a (sorted ++ l) /\ In b (sorted ++ l)
               /\ aware (key a) <> aware (key b)) ->
  sort_into key l sorted = Raises naive_vs_aware.
Proof.
  induction l as [|x l IH]; intros sorted k Hs [a [b [Ia [Ib Hab]]]].
  - rewrite app_nil_r in *. rewrite Forall_forall in Hs.
    elim Hab. rewrite (Hs a Ia), (Hs b Ib). reflexivity.
  - simpl. destruct sorted as [|y rest].
    + simpl. apply (IH [x] (aware (key x))); [repeat constructor|].
      exists a, b. auto.
    + destruct (Bool.bool_dec (aware (key x)) k) as [Hx|Hx].
      * destruct (insert_same_kind k x (y :: rest) Hx Hs) as [r [E [Fr Ir]]].
        rewrite E. simpl. apply (IH r k Fr).
        assert (forall z, In z ((y :: rest) ++ x :: l) -> In z (r ++ l)) as Keep.
        { intros z Hz. rewrite in_app_iff in Hz. rewrite in_app_iff, Ir.
          simpl in Hz. simpl. intuition (subst; auto). }
        exists a, b. repeat split; auto.
      * inversion Hs as [|y' rest' Hy Hrest]; subst. simpl.
        rewrite datetime_lt_mixed by congruence. reflexivity.
Qed.

(** Among keys of one kind the sort is a stable sort by [instant]. *)

Lemma datetime_lt_instant a b :
  aware a = aware b -> datetime_lt a b = Returns (instant a <? instant b)%Z.
Proof.
  unfold datetime_lt, aware, instant.
  destruct (utcoffset a), (utcoffset b); intros H; try discriminate; reflexivity.
Qed.

Lemma insert_splits k x : forall sorted,
  aware (key x) = k ->
  Forall (fun y => aware (key y) = k) sorted ->
  StronglySorted (key_le key) sorted ->
  exists l1 l2,
    sorted = l1 ++ l2
    /\ insert_by_key key x sorted = Returns (l1 ++ x :: l2)
    /\ Forall (fun y => key_le key y x) l1
    /\ Forall (fun y => instant (key x) < instant (key y))%Z l2.
Proof.
  intros sorted Hx. induction sorted as [|y rest IH]; intros Hs Ss.
  - exists [], []. simpl. auto.
  - inversion Hs as [|y' rest' Hy Hrest]; subst.
    inversion Ss as [|y' rest' Ss' Hle]; subst.
    simpl. rewrite datetime_lt_instant by congruence. simpl.
    destruct (instant (key x) <? instant (key y))%Z eqn:C.
    + apply Z.ltb_lt in C. exists [], (y :: rest). simpl.
      repeat split; auto. constructor; [exact C|].
      rewrite Forall_forall in *. intros z Hz.
      specialize (Hle z Hz). unfold key_le in Hle. lia.
    + apply Z.ltb_ge in C.
      destruct (IH Hrest Ss') as [l1 [l2 [E [-> [F1 F2]]]]]. simpl.
      exists (y :: l1), l2. subst rest. repeat split; auto.
Qed.

Lemma sorted_insert_middle x : forall l1 l2,
  StronglySorted (key_le key) (l1 ++ l2) ->
  Forall (fun y => key_le key y x) l1 ->
  Forall (fun y => instant (key x) < instant (key y))%Z l2 ->
  StronglySorted (key_le key) (l1 ++ x :: l2).
Proof.
  induction l1 as [|a l1 IH]; intros l2 Ss F1 F2; simpl in *.
  - constructor; [exact Ss|].
    rewrite Forall_forall in *. intros z Hz. specialize (F2 z Hz).
    unfold key_le. lia.
  - inversion Ss as [|a' l' Ss' Hle]; subst.
    inversion F1 as [|a' l' Hax F1']; subst.
    constructor; [apply IH; assumption|].
    rewrite Forall_app in *. destruct Hle as [H1 H2].
    split; [exact H1 | constructor; assumption].
Qed.

Lemma stable_insert_middle x t : forall l1 l2,
  Forall (fun y => instant (key x) < instant (key y))%Z l2 ->
  filter (has_instant key t) (l1 ++ x :: l2)
  = filter (has_instant key t) ((l1 ++ l2) ++ [x]).
Proof.
  intros l1 l2 F2. rewrite !filter_app. simpl.
  destruct (has_instant key t x) eqn:C; [|now rewrite app_nil_r].
  unfold has_instant in C. apply Z.eqb_eq in C.
  assert (filter (has_instant key t) l2 = []) as ->.
  { induction F2 as [|y l2 Hy F2 IH]; simpl; [reflexivity|].
    destruct (has_instant key t y) eqn:C'; [|exact IH].
    unfold has_instant in C'. apply Z.eqb_eq in C'. lia. }
  now rewrite app_nil_r.
Qed.

Lemma sort_into_same_kind k : forall l sorted,
  Forall (fun y => aware (key y) = k) (sorted ++ l) ->
  StronglySorted (key_le key) sorted ->
  exists r,
    sort_into key l sorted = Returns r
    /\ Permutation (sorted ++ l) r
    /\ StronglySorted (key_le key) r
    /\ (forall t, filter (has_instant key t) r = filter (has_instant key t) (sorted ++ l)).
Proof.
  induction l as [|x l IH]; intros sorted Hk Ss.
  - exists sorted. simpl. rewrite app_nil_r. auto.
  - simpl. pose proof Hk as Hk'. rewrite Forall_app in Hk'.
    destruct Hk' as [Hs Hl]. inversion Hl as [|x' l' Hx Hl']; subst.
    destruct (insert_splits (aware (key x)) x sorted eq_refl Hs Ss)
      as [l1 [l2 [E [-> [F1 F2]]]]].
    simpl. subst sorted.
    destruct (IH (l1 ++ x :: l2)) as [r [-> [P [Sr St]]]].
    + rewrite !Forall_app in *. destruct Hs as [H1 H2].
      repeat split; auto.
    + apply sorted_insert_middle; assumption.
    + exists r. split; [reflexivity|]. split; [|split; [exact Sr|]].
      * rewrite <- P. rewrite <- !app_assoc. apply Permutation_app_head.
        simpl. apply Permutation_sym, Permutation_middle.
      * intros t. rewrite St.
        rewrite (filter_app _ (l1 ++ x :: l2) l), (stable_insert_middle x t l1 l2 F2).
        rewrite <- filter_app. f_equal. rewrite <- !app_assoc. reflexivity.
Qed.

(** A list whose keys are all naive, or all aware, is sorted without
    exception: the result is a permutation in ascending order of
    [instant], and items with equal keys keep their order. *)
Lemma sort_by_key_same_kind k l :
  Forall (fun y => aware (key y) = k) l ->
  exists r,
    sort_by_key key l = Returns r
    /\ Permutation l r
    /\ StronglySorted (key_le key) r
    /\ (forall t, filter (has_instant key t) r = filter (has_instant key t) l).
Proof.
  intros Hk. unfold sort_by_key.
  apply (sort_into_same_kind k l []); [exact Hk | constructor].
Qed.

End SortProperties.

Section SortedTimestamps.
Import Normalize.
Variable fromisoformat : string -> option datetime.

(** C6, where the code departs from it: when one record has no timestamp
    and another has a timestamp with a time zone (every string ending in
    [Z] parses to one), the sort compares the naive [datetime.min] with an
    aware timestamp and [extract_product_info] raises [TypeError]; no
    sorted list is returned. *)
Theorem null_timestamp_meets_aware_timestamp
    (products : list RawProduct) (es : list ProductSummary)
    (a b : ProductSummary) (d : datetime) :
  product_entries fromisoformat products = Returns es ->
  In a es -> In b es ->
  acquisition_date a = None ->
  acquisition_date b = Some d ->
  aware d = true ->
  extract_product_info fromisoformat products = Raises naive_vs_aware.
Proof.
  intros E Ia Ib Ha Hb Hd. unfold extract_product_info. rewrite E. simpl.
  unfold sort_by_key. apply (sort_into_mixed sort_key es [] true); [constructor|].
  exists a, b. repeat split; auto.
  unfold sort_key. rewrite Ha, Hb, Hd. discriminate.
Qed.

(** What holds of the sort in the code: when the timestamps at hand can
    be compared with each other and with the key of a record without one
    (all are naive or missing, or all are aware), the summaries come back
    in ascending order of their keys, those with equal keys in the order
    of the input, a record without timestamp having the key
    [datetime.min]. *)
Lemma extract_product_info_sorted (products : list RawProduct)
    (es : list ProductSummary) (k : bool) :
  product_entries fromisoformat products = Returns es ->
  Forall (fun e => aware (sort_key e) = k) es ->
  exists r,
    extract_product_info fromisoformat products = Returns r
    /\ Permutation es r
    /\ StronglySorted (key_le sort_key) r
    /\ (forall t, filter (has_instant sort_key t) r
                  = filter (has_instant sort_key t) es).
Proof.
  intros E Hk. unfold extract_product_info. rewrite E. simpl.
  exact (sort_by_key_same_kind sort_key k es Hk).
Qed.

End SortedTimestamps.

(** *** The normaliser on sample records *)


(** C6 on a record without timestamp next to a record stamped
    2020-01-01T00:00:00.000Z, in either order. *)
Lemma null_timestamp_meets_aware_timestamp_witness :
  Normalize.extract_product_info Samples.fromisoformat
    [ Samples.dated "A" None;
      Samples.dated "B" (Some "2020-01-01T00:00:00.000Z") ]
  = Normalize.Raises Normalize.naive_vs_aware.
Proof.
  eapply (null_timestamp_meets_aware_timestamp Samples.fromisoformat
            [ Samples.dated "A" None;
              Samples.dated "B" (Some "2020-01-01T00:00:00.000Z") ]).
  - vm_compute. reflexivity.
  - left. reflexivity.
  - right. left. reflexivity.
  - reflexivity.
  - reflexivity.
  - reflexivity.
Defined.

Lemma aware_timestamp_meets_null_timestamp :
  Normalize.extract_product_info Samples.fromisoformat
    [ Samples.dated "B" (Some "2020-01-01T00:00:00.000Z");
      Samples.dated "A" None ]
  = Normalize.Raises
      (TypeError "can't compare offset-naive and offset-aware datetimes").
Proof. vm_compute. reflexivity. Qed.

(** With a timestamp that has no time zone the record without timestamp
    does come first. *)
Lemma null_timestamp_before_naive_timestamp :
  exists a b,
    Normalize.extract_product_info Samples.fromisoformat
      [ Samples.dated "B" (Some "2020-01-01"); Samples.dated "A" None ]
    = Normalize.Returns [a; b]
    /\ Normalize.product_name a = "A" /\ Normalize.acquisition_date a = None
    /\ Normalize.product_name b = "B".
Proof. eexists. eexists. vm_compute. repeat split. Qed.

(** C7 (as stated) fails for an attribute whose value is empty: the
    record's own field is taken although the attribute was found and
    holds a different value. *)
Lemma empty_s3path_attribute_loses :
  let attr := {| AttrName := Some "S3Path"; AttrValue := Some EmptyString |} in
  let p := Samples.stored (Some [attr]) (Some "/eodata/Sentinel-2/top") in
  Normalize.first_s3path_attribute p = Some attr
  /\ AttrValue attr <> S3Path p
  /\ Normalize.resolve_s3_path p = Some "/eodata/Sentinel-2/top"
  /\ Normalize.resolve_s3_path p <> AttrValue attr.
Proof. cbv zeta. repeat split; discriminate. Qed.

(** A non-empty attribute value does win over the record's field. *)
Lemma s3path_attribute_wins :
  Normalize.resolve_s3_path
    (Samples.stored
       (Some [ {| AttrName := Some "origin"; AttrValue := Some "ESA" |};
               {| AttrName := Some "S3Path"; AttrValue := Some "/eodata/attr" |} ])
       (Some "/eodata/top"))
  = Some "/eodata/attr".
Proof. reflexivity. Qed.

(** C9 (as amended) on 1,572,864 bytes. *)
Lemma size_mb_rounds_to_two_places_witness :
  exists e,
    Normalize.product_entry Samples.fromisoformat
      (Samples.sized "S3A_OL_1_EFR" (Some 1572864%Z)) = Normalize.Returns e
    /\ Normalize.size_bytes e = 1572864%Z
    /\ (exists n : Z,
          Normalize.size_mb e = Qmake n 100
          /\ (Z.abs (2 * (Normalize.size_bytes e * 100 - n * 1048576))
              <= 1048576)%Z
          /\ (Z.abs (2 * (Normalize.size_bytes e * 100 - n * 1048576)) = 1048576
              -> Z.even n = true)%Z)
    /\ Qeq (Normalize.size_mb e) (3 # 2).
Proof.
  eexists. split; [reflexivity|].
  pose proof (size_mb_rounds_to_two_places Samples.fromisoformat
                (Samples.sized "S3A_OL_1_EFR" (Some 1572864%Z)) _ eq_refl)
    as [B [_ [_ [N H]]]].
  split; [exact B|]. split; [|exact (H B)].
  apply N; rewrite B; [discriminate | reflexivity].
Defined.

(** C9 (as stated) fails from 2^53 bytes on, where the division rounds.
    9,007,199,254,756,721 bytes are 8589934592.0150003... MB, which
    rounds to 8589934592.02; the float nearest to the byte count is
    9,007,199,254,756,720, the quotient the code rounds is
    8589934592.0149993..., and the size it stores is 8589934592.01. *)
Lemma size_mb_of_rounded_quotient :
  let size := 9007199254756721%Z in
  exists e,
    Normalize.product_entry Samples.fromisoformat
      (Samples.sized "S3A_OL_1_EFR" (Some size)) = Normalize.Returns e
    /\ Normalize.size_bytes e = size
    /\ Normalize.float_of_int size = 9007199254756720%Z
    /\ Normalize.size_mb e = Qmake 858993459201 100
    /\ ~ (Z.abs (2 * (size * 100 - 858993459201 * 1048576)) <= 1048576)%Z
    /\ (Z.abs (2 * (size * 100 - 858993459202 * 1048576)) <= 1048576)%Z.
Proof.
  cbv zeta. eexists. split; [reflexivity|].
  split; [reflexivity|]. split; [reflexivity|]. split; [reflexivity|].
  split; [intros H; vm_compute in H; apply H; reflexivity|].
  intros H; vm_compute in H; discriminate H.
Qed.

(* ================================================================== *)
(** * Part III: further properties of the code *)
(* ================================================================== *)

(** ** The fetch: requests, caps and the sink *)

Section FetchRuns.
Import Fetch.
Context {St : Type} (http : Request -> St -> Response * St).

Lemma truthy_str_nonempty next link :
  truthy_str next = Some link -> link <> EmptyString.
Proof.
  destruct next as [[|c r]|]; simpl; intros H; inversion H; discriminate.
Qed.

Lemma requested_links_nonempty : forall links s next,
  requested_links http s next links ->
  Forall (fun link => link <> EmptyString) links.
Proof.
  induction links as [|link rest IH]; intros s next H; [constructor|].
  simpl in H. destruct H as [Hl H]. constructor.
  - exact (truthy_str_nonempty next link Hl).
  - destruct (http (link_request link) s) as [[e|p] s'].
    + subst. constructor.
    + exact (IH _ _ H).
Qed.

(** The handler sends nothing: the requests of a run and the state it
    leaves the server in are those of the [try] block, whatever the sink
    does. *)
Lemma search_products_sent fuel odata_filter max_products cb (w : World St) :
  sent (snd (search_products http fuel odata_filter max_products cb w))
  = sent (snd (search_body http fuel odata_filter max_products cb w))
  /\ server (snd (search_products http fuel odata_filter max_products cb w))
     = server (snd (search_body http fuel odata_filter max_products cb w)).
Proof.
  rewrite search_products_any.
  destruct (search_body http fuel odata_filter max_products cb w) as [[l|e| |name] w1];
    try (split; reflexivity).
  destruct (notify_cases cb (error_note e) w1) as [N|[[e' N]|[name N]]];
    rewrite N; simpl;
    rewrite add_note_sent, add_note_server; split; reflexivity.
Qed.

(** The loop requests the links the server hands out, one after the
    other, each from the answer to the request before. *)
Lemma pagination_requests fuel : forall max_products cb acc next page_count
    (w : World St),
  exists links,
    sent (snd (pagination http fuel max_products cb acc next page_count w))
    = sent w ++ map link_request links
    /\ requested_links http (server w) next links.
Proof.
  induction fuel as [|fuel IH]; intros max_products cb acc next page_count w.
  - exists []. simpl. rewrite app_nil_r.
    destruct (truthy_str next); [destruct (below_cap _ _)|]; auto.
  - destruct (truthy_str next) as [link|] eqn:Hl.
    2:{ rewrite pagination_no_link by assumption. exists []. simpl.
        now rewrite app_nil_r. }
    destruct (below_cap max_products (length acc)) eqn:Hc.
    2:{ rewrite pagination_at_cap by assumption. exists []. simpl.
        now rewrite app_nil_r. }
    rewrite (pagination_turn_any _ _ _ _ _ _ link) by assumption.
    destruct (notify_cases cb (fetching_note (page_count + 1) (length acc)) w)
      as [N|[[e N]|[name N]]]; rewrite N.
    2,3: exists []; simpl; now rewrite add_note_sent, app_nil_r.
    rewrite add_note_server.
    destruct (http (link_request link) (server w)) as [[e|result] s'] eqn:R.
    + exists [link]. simpl. rewrite add_note_sent, R. auto.
    + destruct (IH max_products cb
                  (acc ++ capped max_products (length acc) (get_value result))
                  (nextLink result) (page_count + 1)
                  (add_request (link_request link) s'
                     (add_note cb (fetching_note (page_count + 1) (length acc)) w)))
        as [links [E F]].
      exists (link :: links). rewrite E. simpl. rewrite add_note_sent, <- app_assoc, R.
      auto.
Qed.

(** Whatever the server answers, whatever the sink does and however
    the run ends, the requests of a run are the query for the products
    endpoint and after it the links the server handed out: each link
    requested is the non-empty next-page link of the answer to the
    request before it, sent to the server in the state that request left
    it in, and nothing is requested after a request that failed. *)
Theorem search_products_requests fuel odata_filter max_products cb (w : World St) :
  exists links,
    sent (snd (search_products http fuel odata_filter max_products cb w))
    = sent w ++ query_request odata_filter max_products :: map link_request links
    /\ match http (query_request odata_filter max_products) (server w) with
       | (Body p, s1) => requested_links http s1 (nextLink p) links
       | (Failure _, _) => links = []
       end
    /\ Forall (fun link => link <> EmptyString) links.
Proof.
  destruct (search_products_sent fuel odata_filter max_products cb w) as [-> _].
  rewrite search_body_any. cbv zeta.
  destruct (http (query_request odata_filter max_products) (server w))
    as [[e|result] s'].
  - exists []. simpl. auto.
  - destruct (notify_cases cb (found_note (length (get_value result)))
                (add_request (query_request odata_filter max_products) s' w))
      as [N|[[e N]|[name N]]]; rewrite N.
    2,3: exists []; simpl; rewrite add_note_sent; simpl; auto.
    destruct (pagination_requests fuel max_products cb (get_value result)
                (nextLink result) 1
                (add_note cb (found_note (length (get_value result)))
                   (add_request (query_request odata_filter max_products) s' w)))
      as [links [E F]].
    rewrite add_note_sent in E. rewrite add_note_server in F.
    simpl in E, F. rewrite <- app_assoc in E. simpl in E.
    exists links. split; [exact E|]. split; [exact F|].
    exact (requested_links_nonempty _ _ _ F).
Qed.

(** Under a cap the loop never lets the list grow past the cap. *)
Lemma pagination_within_cap fuel : forall (K : Z) cb acc next page_count
    (w : World St) l w',
  length acc <= Z.to_nat K ->
  pagination http fuel (Some K) cb acc next page_count w = (Return l, w') ->
  length l <= Z.to_nat K.
Proof.
  induction fuel as [|fuel IH]; intros K cb acc next page_count w l w' La H.
  - destruct (truthy_str next) as [link|] eqn:Hl.
    2:{ rewrite pagination_no_link in H by assumption. inversion H; subst; assumption. }
    destruct (below_cap (Some K) (length acc)) eqn:Hc.
    2:{ rewrite pagination_at_cap in H by assumption. inversion H; subst; assumption. }
    rewrite (pagination_out_of_fuel _ _ _ _ _ link) in H by assumption.
    discriminate.
  - destruct (truthy_str next) as [link|] eqn:Hl.
    2:{ rewrite pagination_no_link in H by assumption. inversion H; subst; assumption. }
    destruct (below_cap (Some K) (length acc)) eqn:Hc.
    2:{ rewrite pagination_at_cap in H by assumption. inversion H; subst; assumption. }
    rewrite (pagination_turn_any _ _ _ _ _ _ link) in H by assumption.
    apply below_cap_true in Hc.
    destruct (notify_cases cb (fetching_note (page_count + 1) (length acc)) w)
      as [N|[[e N]|[name N]]]; rewrite N in H; [|discriminate..].
    destruct (http (link_request link) _) as [[e|result] s'];
      [discriminate|].
    rewrite capped_below in H by lia.
    apply IH in H; [exact H|].
    rewrite length_app, length_firstn. lia.
Qed.

(** A server that answers the first request with no more records
    than its [$top] parameter asks for never makes a capped run return
    more than the cap, whatever the sink does. *)
Theorem search_products_within_cap
    fuel odata_filter (K : Z) cb (w : World St) l w' :
  (1 <= K)%Z ->
  (forall p s',
     http (query_request odata_filter (Some K)) (server w) = (Body p, s') ->
     (Z.of_nat (length (get_value p))
      <= requested_top (query_request odata_filter (Some K)))%Z) ->
  search_products http fuel odata_filter (Some K) cb w = (Return l, w') ->
  length l <= Z.to_nat K
  /\ (requested_top (query_request odata_filter (Some K)) <= 1000)%Z.
Proof.
  intros HK Htop H.
  assert (requested_top (query_request odata_filter (Some K)) = Z.min K 1000) as T.
  { unfold requested_top, query_request, truthy_int. simpl.
    destruct (K =? 0)%Z eqn:E; [apply Z.eqb_eq in E; lia | reflexivity]. }
  split; [|rewrite T; lia].
  rewrite search_products_any in H.
  destruct (search_body http fuel odata_filter (Some K) cb w) as [[l0|e| |name] w0] eqn:B.
  3,4: discriminate.
  2:{ destruct (notify_cases cb (error_note e) w0) as [N|[[e' N]|[name N]]];
        rewrite N in H; inversion H; subst. simpl. lia. }
  inversion H; subst. clear H.
  rewrite search_body_any in B. cbv zeta in B.
  destruct (http (query_request odata_filter (Some K)) (server w))
    as [[e|result] s'] eqn:R; [discriminate|].
  specialize (Htop result s' eq_refl). rewrite T in Htop.
  destruct (notify_cases cb (found_note (length (get_value result)))
              (add_request (query_request odata_filter (Some K)) s' w))
    as [N|[[e N]|[name N]]]; rewrite N in B; [|discriminate..].
  apply pagination_within_cap in B; [exact B | lia].
Qed.

(** A cap of zero, or a negative one, is not "no cap": the loop is
    never entered, so the first page is returned as it came, whatever
    link it carries, after a single request.  The sink is one that
    returns from every call. *)
Theorem search_products_nonpositive_cap
    fuel odata_filter (K : Z) cb (w : World St) p s' :
  quiet cb ->
  (K <= 0)%Z ->
  http (query_request odata_filter (Some K)) (server w) = (Body p, s') ->
  search_products http fuel odata_filter (Some K) cb w
  = (Return (get_value p),
     add_note cb (found_note (length (get_value p)))
       (add_request (query_request odata_filter (Some K)) s' w)).
Proof.
  intros Hq HK R.
  rewrite search_products_unfold, search_body_unfold
    by auto using quiet_accepts_errors.
  cbv zeta. rewrite R.
  rewrite pagination_at_cap; [reflexivity|].
  apply below_cap_false. lia.
Qed.

(** A sink that returns from every call only listens: with it or without
    any sink the loop has the same outcome, sends the same requests and
    leaves the server in the same state. *)
Lemma pagination_ignores_sink fuel : forall max_products cb acc next page_count
    (w1 w2 : World St),
  quiet cb ->
  server w1 = server w2 -> sent w1 = sent w2 ->
  let r1 := pagination http fuel max_products cb acc next page_count w1 in
  let r2 := pagination http fuel max_products None acc next page_count w2 in
  fst r1 = fst r2 /\ server (snd r1) = server (snd r2)
  /\ sent (snd r1) = sent (snd r2) /\ notes (snd r2) = notes w2.
Proof.
  assert (quiet (@None Sink)) as Hn by (intros sink H; discriminate H).
  induction fuel as [|fuel IH];
    intros max_products cb acc next page_count w1 w2 Hq Hs Hr; cbv zeta.
  - simpl. destruct (truthy_str next); [destruct (below_cap _ _)|]; simpl; auto.
  - destruct (truthy_str next) as [link|] eqn:Hl.
    2:{ rewrite !pagination_no_link by assumption. simpl. auto. }
    destruct (below_cap max_products (length acc)) eqn:Hc.
    2:{ rewrite !pagination_at_cap by assumption. simpl. auto. }
    rewrite !(pagination_turn _ _ _ _ _ _ link) by assumption. cbv zeta.
    rewrite <- Hs.
    destruct (http (link_request link) (server w1)) as [[e|result] s'].
    + simpl. rewrite add_note_sent, Hr. auto.
    + pose proof (IH max_products cb
                    (acc ++ capped max_products (length acc) (get_value result))
                    (nextLink result) (page_count + 1)
                    (add_request (link_request link) s'
                       (add_note cb (fetching_note (page_count + 1) (length acc)) w1))
                    (add_request (link_request link) s'
                       (add_note None (fetching_note (page_count + 1) (length acc)) w2))
                    Hq eq_refl) as H.
      cbv zeta in H. simpl in H. rewrite add_note_sent, Hr in H.
      exact (H eq_refl).
Qed.

(** A sink that raises can only cut the loop short: the requests of the
    loop with a sink are the first of the requests of the loop without. *)
Lemma pagination_sink_prefix fuel : forall max_products cb acc next page_count
    (w1 w2 : World St),
  server w1 = server w2 -> sent w1 = sent w2 ->
  exists rest,
    sent (snd (pagination http fuel max_products None acc next page_count w2))
    = sent (snd (pagination http fuel max_products cb acc next page_count w1))
      ++ rest.
Proof.
  assert (quiet (@None Sink)) as Hn by (intros sink H; discriminate H).
  induction fuel as [|fuel IH];
    intros max_products cb acc next page_count w1 w2 Hs Hr.
  - exists []. simpl.
    destruct (truthy_str next); [destruct (below_cap _ _)|]; simpl;
      now rewrite app_nil_r.
  - destruct (truthy_str next) as [link|] eqn:Hl.
    2:{ rewrite !pagination_no_link by assumption. exists []. simpl.
        now rewrite app_nil_r. }
    destruct (below_cap max_products (length acc)) eqn:Hc.
    2:{ rewrite !pagination_at_cap by assumption. exists []. simpl.
        now rewrite app_nil_r. }
    rewrite (pagination_turn_any _ _ _ cb _ _ link) by assumption.
    destruct (notify_cases cb (fetching_note (page_count + 1) (length acc)) w1)
      as [N|[[e N]|[name N]]]; rewrite N.
    2,3: destruct (pagination_requests (S fuel) max_products None acc next
                     page_count w2) as [links [E _]];
         exists (map link_request links); simpl;
         rewrite add_note_sent, Hr; exact E.
    rewrite (pagination_turn _ _ _ None _ _ link) by assumption. cbv zeta.
    rewrite add_note_server, <- Hs.
    destruct (http (link_request link) (server w1)) as [[e|result] s'].
    + exists []. simpl. now rewrite add_note_sent, Hr, app_nil_r.
    + apply IH; simpl; [reflexivity | now rewrite add_note_sent, Hr].
Qed.

(** The sink does not steer a run.  With a sink that returns from
    every call, a run and the run without any sink have the same outcome,
    send the same requests and leave the server in the same state.  With
    any sink, the requests sent are the first of the requests of the run
    without a sink: a sink that raises can only cut the run short.  The
    run without a sink records no message. *)
Theorem search_products_ignores_sink
    fuel odata_filter max_products cb (w : World St) :
  let with_sink := search_products http fuel odata_filter max_products cb w in
  let without := search_products http fuel odata_filter max_products None w in
  (quiet cb ->
   fst with_sink = fst without
   /\ server (snd with_sink) = server (snd without)
   /\ sent (snd with_sink) = sent (snd without))
  /\ (exists rest, sent (snd without) = sent (snd with_sink) ++ rest)
  /\ notes (snd without) = notes w.
Proof.
  assert (quiet (@None Sink)) as Hn by (intros sink H; discriminate H).
  cbv zeta. split; [|split].
  - intros Hq.
    rewrite !search_products_unfold, !search_body_unfold
      by auto using quiet_accepts_errors.
    cbv zeta.
    destruct (http (query_request odata_filter max_products) (server w))
      as [[e|result] s'].
    { simpl. rewrite add_note_sent, add_note_server. auto. }
    pose proof (pagination_ignores_sink fuel max_products cb (get_value result)
                  (nextLink result) 1
                  (add_note cb (found_note (length (get_value result)))
                     (add_request (query_request odata_filter max_products) s' w))
                  (add_note None (found_note (length (get_value result)))
                     (add_request (query_request odata_filter max_products) s' w))
                  Hq) as H.
    rewrite add_note_server, add_note_sent in H.
    specialize (H eq_refl eq_refl).
    cbv zeta in H. destruct H as [H1 [H2 [H3 H4]]].
    destruct (pagination http fuel max_products cb _ _ _ _) as [[l1|e1| |name1] w1];
      destruct (pagination http fuel max_products None _ _ _ _) as [[l2|e2| |name2] w2];
      simpl in *; try discriminate; try rewrite add_note_sent, add_note_server; auto.
  - destruct (search_products_sent fuel odata_filter max_products cb w) as [-> _].
    destruct (search_products_sent fuel odata_filter max_products None w) as [-> _].
    rewrite (search_body_unfold _ _ _ _ None) by assumption.
    rewrite (search_body_any _ _ _ _ cb). cbv zeta.
    destruct (http (query_request odata_filter max_products) (server w))
      as [[e|result] s'].
    { exists []. simpl. now rewrite app_nil_r. }
    destruct (notify_cases cb (found_note (length (get_value result)))
                (add_request (query_request odata_filter max_products) s' w))
      as [N|[[e N]|[name N]]]; rewrite N.
    2,3: destruct (pagination_requests fuel max_products None (get_value result)
                     (nextLink result) 1
                     (add_note None (found_note (length (get_value result)))
                        (add_request (query_request odata_filter max_products) s' w)))
           as [links [E _]];
         exists (map link_request links); simpl; rewrite add_note_sent; exact E.
    apply pagination_sink_prefix; [now rewrite !add_note_server
                                  | now rewrite !add_note_sent].
  - rewrite search_products_unfold, search_body_unfold
      by auto using quiet_accepts_errors.
    cbv zeta.
    destruct (http (query_request odata_filter max_products) (server w))
      as [[e|result] s']; [reflexivity|].
    pose proof (pagination_ignores_sink fuel max_products None (get_value result)
                  (nextLink result) 1
                  (add_note None (found_note (length (get_value result)))
                     (add_request (query_request odata_filter max_products) s' w))
                  (add_note None (found_note (length (get_value result)))
                     (add_request (query_request odata_filter max_products) s' w))
                  Hn eq_refl eq_refl) as H.
    cbv zeta in H. destruct H as [_ [_ [_ H4]]].
    destruct (pagination http fuel max_products None _ _ _ _) as [[l2|e2| |name2] w2];
      simpl in *; exact H4.
Qed.

(** Without a cap nothing but the server ends the loop: when every
    answer carries a next-page link, the run is still fetching after any
    number of turns.  The sink is one that returns from every call. *)
Theorem search_products_no_cap_no_end fuel odata_filter cb (w : World St) :
  quiet cb ->
  (forall req s, exists p s',
     http req s = (Body p, s') /\ truthy_str (nextLink p) <> None) ->
  fst (search_products http fuel odata_filter None cb w) = OutOfFuel.
Proof.
  intros Hq Hlinks.
  assert (forall fuel acc next pc (w0 : World St),
            truthy_str next <> None ->
            fst (pagination http fuel None cb acc next pc w0) = OutOfFuel) as Loop.
  { clear fuel w. induction fuel as [|fuel IH]; intros acc next pc w0 Hn.
    - simpl. destruct (truthy_str next); [reflexivity | now elim Hn].
    - destruct (truthy_str next) as [link|] eqn:Hl; [|now elim Hn].
      rewrite (pagination_turn _ _ _ _ _ _ link) by (assumption || reflexivity).
      cbv zeta.
      destruct (Hlinks (link_request link) (server w0)) as [p [s' [R L]]].
      rewrite R. apply IH. exact L. }
  rewrite search_products_unfold, search_body_unfold
    by auto using quiet_accepts_errors.
  cbv zeta.
  destruct (Hlinks (query_request odata_filter None) (server w)) as [p [s' [R L]]].
  rewrite R.
  specialize (Loop fuel (get_value p) (nextLink p) 1
                (add_note cb (found_note (length (get_value p)))
                   (add_request (query_request odata_filter None) s' w)) L).
  destruct (pagination http fuel None cb _ _ _ _) as [[l|e| |name] w']; simpl in *;
    congruence.
Qed.

End FetchRuns.

(** ** The normaliser: what comes out of the sort, and sizes *)

Section SortKeeps.
Import Normalize.
Context {A : Type} (key : A -> datetime).

Lemma insert_by_key_permutation x : forall sorted r,
  insert_by_key key x sorted = Returns r -> Permutation (x :: sorted) r.
Proof.
  induction sorted as [|y rest IH]; intros r H; simpl in H.
  - inversion H. apply Permutation_refl.
  - destruct (datetime_lt (key x) (key y)) as [b|e]; simpl in H; [|discriminate].
    destruct b.
    + inversion H. apply Permutation_refl.
    + destruct (insert_by_key key x rest) as [r'|e]; simpl in H; [|discriminate].
      inversion H; subst.
      rewrite perm_swap. apply perm_skip. apply IH. reflexivity.
Qed.

Lemma sort_into_permutation : forall l sorted r,
  sort_into key l sorted = Returns r -> Permutation (sorted ++ l) r.
Proof.
  induction l as [|x l IH]; intros sorted r H; simpl in H.
  - inversion H. rewrite app_nil_r. apply Permutation_refl.
  - destruct (insert_by_key key x sorted) as [s|e] eqn:E; simpl in H; [|discriminate].
    apply IH in H. rewrite <- H.
    apply insert_by_key_permutation in E.
    rewrite <- Permutation_middle.
    change (Permutation ((x :: sorted) ++ l) (s ++ l)).
    apply Permutation_app_tail. exact E.
Qed.

End SortKeeps.

Section NormalizeRuns.
Import Normalize.
Variable fromisoformat : string -> option datetime.

Lemma product_entries_s3_paths products : forall es,
  product_entries fromisoformat products = Returns es ->
  map s3_path es = map resolve_s3_path products.
Proof.
  induction products as [|p products IH]; simpl; intros es H.
  - inversion H. reflexivity.
  - destruct (product_entry fromisoformat p) as [e|x] eqn:E; simpl in H; [|discriminate].
    destruct (product_entries fromisoformat products) as [es'|x]; simpl in H;
      [|discriminate].
    inversion H; subst. simpl. f_equal; [|now apply IH].
    unfold product_entry in E.
    destruct (truthy_str (Some (start_str p))) as [s|];
      [destruct (fromisoformat (replace_Z s))|]; simpl in E;
      inversion E; reflexivity.
Qed.

Lemma extract_product_info_permutation
    (products : list RawProduct) (r : list ProductSummary) :
  extract_product_info fromisoformat products = Returns r ->
  exists es,
    product_entries fromisoformat products = Returns es /\ Permutation es r.
Proof.
  unfold extract_product_info. intros H.
  destruct (product_entries fromisoformat products) as [es|e] eqn:E; simpl in H;
    [|discriminate].
  exists es. split; [reflexivity|].
  apply sort_into_permutation in H. exact H.
Qed.

(** When [extract_product_info] returns, its list holds the summary of
    every input record, each once: nothing is dropped or doubled by the
    sort, and the list is as long as the input. *)
Theorem extract_product_info_keeps_records
    (products : list RawProduct) (r : list ProductSummary) :
  extract_product_info fromisoformat products = Returns r ->
  exists es,
    product_entries fromisoformat products = Returns es
    /\ Permutation es r
    /\ length r = length products.
Proof.
  intros H.
  destruct (extract_product_info_permutation products r H) as [es [E P]].
  exists es. split; [exact E|]. split; [exact P|].
  rewrite <- (Permutation_length P). now apply product_entries_length in E.
Qed.

(** From the records of the catalogue to the paths file: the lines of the
    file made from the normalised list are the non-empty storage paths of
    the raw records, each record's path once. *)
Theorem paths_of_extracted_records
    (products : list RawProduct) (r : list ProductSummary) :
  extract_product_info fromisoformat products = Returns r ->
  Permutation (Results.paths_of r)
              (Results.truthy_paths (map resolve_s3_path products)).
Proof.
  intros H.
  destruct (extract_product_info_permutation products r H) as [es [E P]].
  rewrite <- (product_entries_s3_paths products es E).
  unfold Results.paths_of, Results.truthy_paths.
  apply Permutation_flat_map, Permutation_map, Permutation_sym, P.
Qed.

End NormalizeRuns.

Section Sizes.
Import Normalize.

Lemma round_half_even_monotone a b den :
  (0 < den)%Z -> (a <= b)%Z ->
  (round_half_even a den <= round_half_even b den)%Z.
Proof.
  intros Hd Hab.
  destruct (Z.eq_dec a b) as [->|Hne]; [lia|].
  pose proof (round_half_even_nearest a den Hd) as [Ha _].
  pose proof (round_half_even_nearest b den Hd) as [Hb _].
  cbv zeta in Ha, Hb.
  set (n := round_half_even a den) in *. set (m := round_half_even b den) in *.
  destruct (Z_le_gt_dec n m) as [L|G]; [exact L|].
  assert (n * den >= m * den + den)%Z by nia.
  lia.
Qed.

Lemma round_half_even_multiple m den :
  (0 < den)%Z -> round_half_even (m * den) den = m.
Proof.
  intros Hd. unfold round_half_even.
  rewrite Z.div_mul, Z.mod_mul by lia.
  destruct (2 * 0 <? den)%Z eqn:E; [reflexivity|].
  apply Z.ltb_ge in E. lia.
Qed.

(** From 2^53 on, the float nearest to an integer lies between the powers
    of two around the integer. *)
Lemma float_of_int_large a :
  (2 ^ 53 <= a)%Z ->
  (2 ^ Z.log2 a <= float_of_int a <= 2 ^ (Z.log2 a + 1))%Z
  /\ float_of_int a
     = (round_half_even a (2 ^ (Z.log2 a - 52)) * 2 ^ (Z.log2 a - 52))%Z.
Proof.
  intros H.
  assert (0 < a)%Z as Hpos by lia.
  assert (53 <= Z.log2 a)%Z as Hk
    by (rewrite <- (Z.log2_pow2 53) by lia; apply Z.log2_le_mono; exact H).
  pose proof (Z.log2_spec a Hpos) as [Lo Hi].
  assert (float_of_int a
          = (round_half_even a (2 ^ (Z.log2 a - 52)) * 2 ^ (Z.log2 a - 52))%Z) as E.
  { unfold float_of_int. rewrite Z.abs_eq by lia.
    destruct (a <? 2 ^ 53)%Z eqn:C; [apply Z.ltb_lt in C; lia|].
    cbv zeta. rewrite Z.sgn_pos by lia. lia. }
  split; [|exact E]. rewrite E.
  set (k := Z.log2 a) in *. set (ulp := (2 ^ (k - 52))%Z) in *.
  assert (0 < ulp)%Z as Hu by (apply Z.pow_pos_nonneg; lia).
  assert (2 ^ k = 2 ^ 52 * ulp)%Z as Ek
    by (unfold ulp; rewrite <- Z.pow_add_r by lia; f_equal; lia).
  assert (2 ^ (k + 1) = 2 ^ 53 * ulp)%Z as Ek1
    by (unfold ulp; rewrite <- Z.pow_add_r by lia; f_equal; lia).
  replace (Z.succ k) with (k + 1)%Z in Hi by lia.
  pose proof (round_half_even_monotone (2 ^ 52 * ulp) a ulp Hu ltac:(lia)) as M1.
  pose proof (round_half_even_monotone a (2 ^ 53 * ulp) ulp Hu ltac:(lia)) as M2.
  rewrite round_half_even_multiple in M1, M2 by assumption.
  rewrite Ek, Ek1. split; apply Z.mul_le_mono_nonneg_r; lia.
Qed.

Lemma float_of_int_opp z : float_of_int (- z) = (- float_of_int z)%Z.
Proof.
  unfold float_of_int. rewrite Z.abs_opp.
  destruct (Z.abs z <? 2 ^ 53)%Z; [reflexivity|].
  cbv zeta. rewrite Z.sgn_opp. lia.
Qed.

Lemma float_of_int_monotone_nonneg a b :
  (0 <= a)%Z -> (a <= b)%Z -> (float_of_int a <= float_of_int b)%Z.
Proof.
  intros Ha Hab.
  destruct (Z_lt_le_dec b (2 ^ 53)) as [Hb|Hb].
  { rewrite !float_of_int_exact; [exact Hab | |]; rewrite Z.abs_eq; lia. }
  pose proof (float_of_int_large b Hb) as [[Lb _] Eb].
  assert (2 ^ 53 <= 2 ^ Z.log2 b)%Z as P.
  { apply Z.pow_le_mono_r; [lia|].
    rewrite <- (Z.log2_pow2 53) by lia. apply Z.log2_le_mono. exact Hb. }
  destruct (Z_lt_le_dec a (2 ^ 53)) as [Ha'|Ha'].
  { rewrite (float_of_int_exact a) by (rewrite Z.abs_eq; lia). lia. }
  pose proof (float_of_int_large a Ha') as [[_ Ua] Ea].
  pose proof (Z.log2_le_mono a b Hab) as L.
  destruct (Z.eq_dec (Z.log2 a) (Z.log2 b)) as [Eq|Ne].
  - rewrite Ea, Eb, Eq.
    assert (0 < 2 ^ (Z.log2 b - 52))%Z as Hu.
    { apply Z.pow_pos_nonneg; [lia|].
      assert (53 <= Z.log2 b)%Z
        by (rewrite <- (Z.log2_pow2 53) by lia; apply Z.log2_le_mono; exact Hb).
      lia. }
    apply Z.mul_le_mono_nonneg_r; [lia|].
    apply round_half_even_monotone; assumption.
  - assert (2 ^ (Z.log2 a + 1) <= 2 ^ Z.log2 b)%Z
      by (apply Z.pow_le_mono_r; lia).
    lia.
Qed.

Lemma float_of_int_nonneg a : (0 <= a)%Z -> (0 <= float_of_int a)%Z.
Proof.
  intros H. pose proof (float_of_int_monotone_nonneg 0 a ltac:(lia) H) as M.
  rewrite (float_of_int_exact 0) in M by (simpl; lia). exact M.
Qed.

(** Rounding an integer to the nearest float keeps the order. *)
Lemma float_of_int_monotone a b :
  (a <= b)%Z -> (float_of_int a <= float_of_int b)%Z.
Proof.
  intros Hab.
  destruct (Z_le_gt_dec 0 a) as [Ha|Ha].
  - apply float_of_int_monotone_nonneg; assumption.
  - destruct (Z_le_gt_dec 0 b) as [Hb|Hb].
    + pose proof (float_of_int_nonneg b Hb).
      pose proof (float_of_int_nonneg (- a) ltac:(lia)) as N.
      rewrite float_of_int_opp in N. lia.
    + pose proof (float_of_int_monotone_nonneg (- b) (- a) ltac:(lia) ltac:(lia)) as M.
      rewrite !float_of_int_opp in M. lia.
Qed.

Lemma size_mb_of_hundredths size :
  Qeq (size_mb_of size)
      (Qmake (round_half_even (float_of_int size * 100) (1024 * 1024)) 100).
Proof.
  unfold size_mb_of. destruct (size =? 0)%Z eqn:E; [|apply Qeq_refl].
  apply Z.eqb_eq in E. subst. reflexivity.
Qed.

(** A larger byte count never shows as a smaller size. *)
Theorem size_mb_monotone (a b : Z) :
  (a <= b)%Z -> Qle (size_mb_of a) (size_mb_of b).
Proof.
  intros H. rewrite !size_mb_of_hundredths. unfold Qle. cbn [Qnum Qden].
  apply Z.mul_le_mono_nonneg_r; [lia|].
  apply round_half_even_monotone; [lia|].
  apply Z.mul_le_mono_nonneg_r; [lia|].
  apply float_of_int_monotone. exact H.
Qed.

(** Sizes below 5243 bytes, and only those, show as 0 MB. *)
Theorem size_mb_zero_threshold (size : Z) :
  (0 <= size)%Z ->
  Qeq (size_mb_of size) 0 <-> (size <= 5242)%Z.
Proof.
  intros H0. rewrite size_mb_of_hundredths.
  assert (size <= 5242 <-> float_of_int size <= 5242)%Z as F.
  { destruct (Z_lt_le_dec size (2 ^ 53)) as [Hs|Hs].
    - rewrite float_of_int_exact by (rewrite Z.abs_eq; lia). reflexivity.
    - pose proof (float_of_int_large size Hs) as [[M _] _].
      assert (2 ^ 53 <= 2 ^ Z.log2 size)%Z as P.
      { apply Z.pow_le_mono_r; [lia|].
        rewrite <- (Z.log2_pow2 53) by lia. apply Z.log2_le_mono. exact Hs. }
      assert (5242 < 2 ^ 53)%Z by reflexivity. lia. }
  rewrite F.
  pose proof (float_of_int_nonneg size H0) as Fn.
  pose proof (round_half_even_nearest (float_of_int size * 100) (1024 * 1024)
                ltac:(lia)) as [Hn _].
  cbv zeta in Hn.
  set (n := round_half_even (float_of_int size * 100) (1024 * 1024)) in *.
  unfold Qeq. cbn [Qnum Qden].
  split; intros H; lia.
Qed.

End Sizes.

(** ** The results tab *)

Section ResultsFiles.
Import Normalize Results.

Lemma split_on_not_nil c text : split_on c text <> [].
Proof.
  destruct text as [|a rest]; simpl; [discriminate|].
  destruct (a =? c)%char; [discriminate|].
  destruct (split_on c rest); discriminate.
Qed.

Lemma split_on_one_line c line :
  has_char c line = false -> split_on c line = [line].
Proof.
  induction line as [|a rest IH]; simpl; [reflexivity|].
  intros H. apply orb_false_iff in H. destruct H as [Ha Hr].
  rewrite Ha, (IH Hr). reflexivity.
Qed.

Lemma split_on_first_line c line rest :
  has_char c line = false ->
  split_on c (line ++ String c rest) = line :: split_on c rest.
Proof.
  induction line as [|a line IH]; simpl; intros H.
  - rewrite Ascii.eqb_refl. reflexivity.
  - apply orb_false_iff in H. destruct H as [Ha Hr].
    rewrite Ha, (IH Hr). reflexivity.
Qed.

(** Joining lines with a separator and splitting at it gives the lines
    back, when there is a line and no line holds the separator. *)
Lemma split_on_concat c : forall lines,
  lines <> [] ->
  Forall (fun line => has_char c line = false) lines ->
  split_on c (String.concat (String c EmptyString) lines) = lines.
Proof.
  induction lines as [|x lines IH]; intros Hne Hc; [now elim Hne|].
  inversion Hc as [|x' l' Hx Hrest]; subst.
  destruct lines as [|y lines].
  - simpl. now apply split_on_one_line.
  - change (String.concat (String c EmptyString) (x :: y :: lines))
      with (x ++ String c (String.concat (String c EmptyString) (y :: lines)))%string.
    rewrite split_on_first_line by assumption.
    rewrite IH; [reflexivity | discriminate | assumption].
Qed.

Lemma truthy_paths_nonempty paths :
  Forall (fun path => path <> EmptyString) (truthy_paths paths).
Proof.
  induction paths as [|[[|c r]|] paths IH]; simpl; auto.
  constructor; [discriminate | exact IH].
Qed.

(** Splitting the content of the paths file at the newlines gives
    back the non-empty storage paths, in the order of the products, when
    no path holds a newline: products without a path leave no line, not
    even an empty one.  When no product has a path, and only then, the
    content is the empty string, and splitting it gives one empty line
    rather than no line. *)
Theorem paths_content_round_trip (products : list ProductSummary) :
  Forall (fun path => has_char newline_char path = false) (paths_of products) ->
  split_on newline_char (paths_content products)
  = match paths_of products with
    | [] => [EmptyString]
    | path :: paths => path :: paths
    end
  /\ (paths_content products = EmptyString <-> paths_of products = [])
  /\ Forall (fun line => line <> EmptyString) (paths_of products).
Proof.
  intros Hc. split; [|split].
  - unfold paths_content, newline.
    destruct (paths_of products) as [|path paths] eqn:E; [reflexivity|].
    apply split_on_concat; [discriminate | exact Hc].
  - unfold paths_content. split.
    + pose proof (truthy_paths_nonempty (map s3_path products)) as Hn.
      fold (paths_of products) in Hn.
      destruct (paths_of products) as [|x l]; [reflexivity|].
      inversion Hn as [|x' l' Hx _]; subst.
      destruct x as [|a x]; [now elim Hx|].
      destruct l; simpl; discriminate.
    + intros ->. reflexivity.
  - apply truthy_paths_nonempty.
Qed.

Section Detailed.
Variable strftime_second : datetime -> string.
Variable str_size : Q -> string.

Lemma detailed_block_length i p :
  length (detailed_block strftime_second str_size i p)
  = 4 + length (paths_of [p]).
Proof.
  unfold detailed_block, paths_of, truthy_paths. simpl.
  destruct (truthy_str (s3_path p)); reflexivity.
Qed.

Lemma paths_of_app l1 l2 : paths_of (l1 ++ l2) = paths_of l1 ++ paths_of l2.
Proof.
  unfold paths_of, truthy_paths. now rewrite map_app, flat_map_app.
Qed.

Lemma enumerate_from_app {A B} (f : nat -> A -> B) : forall l1 l2 i,
  enumerate_from f i (l1 ++ l2)
  = enumerate_from f i l1 ++ enumerate_from f (i + length l1) l2.
Proof.
  induction l1 as [|x l1 IH]; intros l2 i; simpl.
  - now rewrite Nat.add_0_r.
  - rewrite IH. do 3 f_equal. lia.
Qed.

Lemma detailed_lines_from_length : forall l i,
  length (concat (enumerate_from (detailed_block strftime_second str_size) i l))
  = 4 * length l + length (paths_of l).
Proof.
  induction l as [|p l IH]; intros i; [reflexivity|].
  cbn [enumerate_from concat]. rewrite length_app, detailed_block_length, IH.
  rewrite (paths_of_app [p] l : paths_of (p :: l) = _), (length_app (paths_of [p])).
  cbn [length]. lia.
Qed.

(** The detailed file has four lines for each product and one more for
    each product with a path; the entry of a product starts right after
    the lines of the products before it, with its 1-based number and its
    name. *)
Theorem detailed_lines_layout (before after : list ProductSummary)
    (p : ProductSummary) :
  let products := before ++ p :: after in
  let lines := detailed_lines strftime_second str_size products in
  length lines = 4 * length products + length (paths_of products)
  /\ nth (4 * length before + length (paths_of before)) lines EmptyString
     = (str_nat (length before + 1) ++ ". " ++ product_name p)%string
  /\ nth (4 * length products + length (paths_of products) - 1) lines
         (String "x" EmptyString)
     = EmptyString.
Proof.
  cbv zeta. unfold detailed_lines. split; [apply detailed_lines_from_length|].
  rewrite enumerate_from_app, concat_app. split.
  - rewrite app_nth2; rewrite detailed_lines_from_length; [|lia].
    replace (4 * length before + length (paths_of before)
             - (4 * length before + length (paths_of before))) with 0 by lia.
    cbn [enumerate_from concat]. unfold detailed_block. simpl.
    rewrite Nat.add_comm. reflexivity.
  - rewrite app_nth2; rewrite detailed_lines_from_length;
      [|rewrite paths_of_app, !length_app; simpl; lia].
    change (p :: after) with ([p] ++ after).
    rewrite (paths_of_app before), !length_app.
    set (rest := concat (enumerate_from _ (1 + length before) ([p] ++ after))).
    assert (length rest = 4 * length ([p] ++ after) + length (paths_of ([p] ++ after)))
      as L by apply detailed_lines_from_length.
    assert (exists front, rest = front ++ [EmptyString]) as [front E].
    { subst rest. clear L.
      assert (forall l i, l <> [] -> exists front,
                concat (enumerate_from (detailed_block strftime_second str_size) i l)
                = front ++ [EmptyString]) as G.
      { induction l as [|q l IH]; intros i Hl; [now elim Hl|].
        cbn [enumerate_from concat]. destruct l as [|q' l].
        - cbn [enumerate_from concat]. rewrite app_nil_r. unfold detailed_block.
          eexists. apply app_assoc.
        - destruct (IH (S i)) as [front E]; [discriminate|].
          rewrite E. eexists. apply app_assoc. }
      apply G. discriminate. }
    rewrite E in L |- *. rewrite !length_app in L. cbn [length] in L |- *.
    match goal with
    | |- nth ?i _ _ = _ => replace i with (length front) by lia
    end.
    apply nth_middle.
Qed.

End Detailed.

Section Preview.
Variable strftime_day : datetime -> string.

Lemma str_take_length : forall n s,
  String.length (str_take n s) = Nat.min n (String.length s).
Proof.
  induction n as [|n IH]; intros [|c s]; simpl; auto.
Qed.

Lemma string_length_append (a b : string) :
  String.length (a ++ b) = String.length a + String.length b.
Proof. induction a as [|c a IH]; simpl; auto. Qed.

Lemma preview_name_length name :
  String.length (preview_name name)
  = if (60 <? String.length name)%nat then 63 else String.length name.
Proof.
  unfold preview_name. destruct (60 <? String.length name)%nat eqn:C; [|reflexivity].
  apply Nat.ltb_lt in C.
  rewrite string_length_append, str_take_length, Nat.min_l by lia. reflexivity.
Qed.

Lemma enumerate_from_numbers {A B} (f : nat -> A -> B) (g : B -> nat) :
  (forall i x, g (f i x) = i) ->
  forall l i, map g (enumerate_from f i l) = seq i (length l).
Proof.
  intros Hg. induction l as [|x l IH]; intros i; simpl; [reflexivity|].
  now rewrite Hg, IH.
Qed.

Lemma enumerate_from_map {A B C} (f : nat -> A -> B) (g : B -> C) (h : A -> C) :
  (forall i x, g (f i x) = h x) ->
  forall l i, map g (enumerate_from f i l) = map h l.
Proof.
  intros Hg. induction l as [|x l IH]; intros i; simpl; [reflexivity|].
  now rewrite Hg, IH.
Qed.

Lemma enumerate_from_Forall {A B} (f : nat -> A -> B) (P : B -> Prop) :
  (forall i x, P (f i x)) ->
  forall l i, Forall P (enumerate_from f i l).
Proof.
  intros HP. induction l as [|x l IH]; intros i; simpl; constructor; auto.
Qed.

(** The preview shows the first 50 products at most, numbered from 1 in
    list order, and no name in it is longer than 63 characters: a name of
    up to 60 characters is shown whole, a longer one as its first 60
    characters and three dots. *)
Theorem preview_data_rows (products : list ProductSummary) :
  let rows := preview_data strftime_day products in
  map row_no rows = seq 1 (Nat.min 50 (length products))
  /\ map row_name rows = map (fun p => preview_name (product_name p))
                             (firstn 50 products)
  /\ Forall (fun row => String.length (row_name row) <= 63) rows
  /\ (forall name, String.length name <= 60 -> preview_name name = name)
  /\ (forall name, 60 < String.length name ->
        preview_name name = (str_take 60 name ++ "...")%string
        /\ String.length (preview_name name) = 63).
Proof.
  cbv zeta. unfold preview_data.
  replace (slice_to products 50) with (firstn 50 products) by reflexivity.
  assert (length (firstn 50 products) = Nat.min 50 (length products)) as Len
    by apply length_firstn.
  remember (firstn 50 products) as l eqn:El. clear El.
  split; [|split; [|split; [|split]]].
  - rewrite (enumerate_from_numbers _ row_no) by reflexivity.
    now rewrite Len.
  - apply enumerate_from_map. reflexivity.
  - apply enumerate_from_Forall. intros i p.
    cbn [preview_row row_name]. rewrite preview_name_length.
    destruct (60 <? String.length (product_name p))%nat eqn:C; [lia|].
    apply Nat.ltb_ge in C. lia.
  - intros name H. unfold preview_name.
    destruct (60 <? String.length name)%nat eqn:C; [apply Nat.ltb_lt in C; lia|reflexivity].
  - intros name H. pose proof (preview_name_length name) as L.
    unfold preview_name in *.
    destruct (60 <? String.length name)%nat eqn:C; [auto|apply Nat.ltb_ge in C; lia].
Qed.

End Preview.

End ResultsFiles.

(** ** The filter: the tile text *)

Section FilterText.
Import Filter.
#[local] Open Scope string_scope.
Context {number : Type} (str : number -> string).

(** In the filter of a SENTINEL-2 product the tile is copied character
    for character between [contains(Name,'] and [')]: nothing in it is
    escaped or dropped, whatever characters it holds, and the text before
    and after it does not depend on it. *)
Theorem tile_copied_verbatim config bbox start_date end_date (tile : string) :
  collection config = "SENTINEL-2" ->
  tile <> EmptyString ->
  build_odata_filter str config bbox start_date end_date (Some tile)
  = (collection_filter config ++ " and " ++ type_filter config
     ++ " and contains(Name,'")
    ++ tile
    ++ ("') and " ++ spatial_filter str bbox
        ++ " and " ++ temporal_filter start_date end_date).
Proof.
  intros Hc Ht. unfold build_odata_filter, tile_filter.
  apply String.eqb_eq in Hc. rewrite Hc.
  assert (truthy_str (Some tile) = Some tile) as ->
    by (destruct tile; [now elim Ht | reflexivity]).
  repeat rewrite append_assoc. reflexivity.
Qed.

End FilterText.

(** ** The further properties on sample inputs *)

Lemma tile_copied_verbatim_witness :
  Filter.build_odata_filter (fun s : string => s) Samples.sentinel2_l2a
    Samples.bolzano "2020-01-01" "2020-01-31" (Some "T32' or 'x' eq 'x")
  = ((Filter.collection_filter Samples.sentinel2_l2a ++ " and "
      ++ Filter.type_filter Samples.sentinel2_l2a ++ " and contains(Name,'")
     ++ "T32' or 'x' eq 'x"
     ++ ("') and " ++ Filter.spatial_filter (fun s : string => s) Samples.bolzano
         ++ " and " ++ Filter.temporal_filter "2020-01-01" "2020-01-31"))%string.
Proof.
  apply (tile_copied_verbatim (fun s : string => s) Samples.sentinel2_l2a
           Samples.bolzano "2020-01-01" "2020-01-31" "T32' or 'x' eq 'x").
  - reflexivity.
  - discriminate.
Defined.

Lemma search_products_within_cap_witness :
  length (map Samples.product ["a"; "b"; "c"]) <= Z.to_nat 3
  /\ (Fetch.requested_top (Fetch.query_request "f" (Some 3%Z)) <= 1000)%Z.
Proof.
  eapply (search_products_within_cap Samples.scripted 2 "f" 3%Z
            (Some Samples.recorder)
            (Samples.start (map Fetch.Body Samples.three_pages))).
  - lia.
  - intros p s' H. vm_compute in H. inversion H. vm_compute. discriminate.
  - reflexivity.
Defined.

Lemma search_products_nonpositive_cap_witness :
  Fetch.search_products Samples.scripted 5 "f" (Some 0%Z) (Some Samples.recorder)
    (Samples.start (map Fetch.Body Samples.three_pages))
  = (Fetch.Return (map Samples.product ["a"; "b"]),
     Fetch.add_note (Some Samples.recorder) (Fetch.found_note 2)
       (Fetch.add_request (Fetch.query_request "f" (Some 0%Z))
          (map Fetch.Body (tl Samples.three_pages))
          (Samples.start (map Fetch.Body Samples.three_pages)))).
Proof.
  apply (search_products_nonpositive_cap Samples.scripted 5 "f" 0%Z
           (Some Samples.recorder)
           (Samples.start (map Fetch.Body Samples.three_pages))
           (Samples.page ["a"; "b"] (Some "https://catalogue.example/p2"))
           (map Fetch.Body (tl Samples.three_pages))).
  - apply recorder_quiet.
  - lia.
  - reflexivity.
Defined.

Lemma search_products_ignores_sink_witness :
  let w := Samples.start (map Fetch.Body Samples.three_pages) in
  let with_sink :=
    Fetch.search_products Samples.scripted 2 "f" None (Some Samples.recorder) w in
  let without := Fetch.search_products Samples.scripted 2 "f" None None w in
  fst with_sink = fst without
  /\ Fetch.server (snd with_sink) = Fetch.server (snd without)
  /\ Fetch.sent (snd with_sink) = Fetch.sent (snd without).
Proof.
  apply (search_products_ignores_sink Samples.scripted 2 "f" None
           (Some Samples.recorder)
           (Samples.start (map Fetch.Body Samples.three_pages))).
  apply recorder_quiet.
Defined.

Lemma search_products_no_cap_no_end_witness :
  fst (Fetch.search_products Samples.endless 7 "f" None (Some Samples.recorder)
         (Samples.start 0))
  = Fetch.OutOfFuel.
Proof.
  apply (search_products_no_cap_no_end Samples.endless 7 "f"
           (Some Samples.recorder) (Samples.start 0)).
  - apply recorder_quiet.
  - intros req s. eexists. eexists. split; [reflexivity | discriminate].
Defined.

Lemma extract_product_info_sorted_witness :
  exists r,
    Normalize.extract_product_info Samples.fromisoformat
      [ Samples.dated "C" (Some "2020-03-01T00:00:00.000Z");
        Samples.dated "B" (Some "2020-01-01T00:00:00.000Z");
        Samples.dated "D" (Some "2020-03-01T01:00:00.000+01:00") ]
    = Normalize.Returns r
    /\ map Normalize.product_name r = ["B"; "C"; "D"]
    /\ StronglySorted (Normalize.key_le Normalize.sort_key) r.
Proof.
  pose proof (extract_product_info_sorted Samples.fromisoformat
               [ Samples.dated "C" (Some "2020-03-01T00:00:00.000Z");
                 Samples.dated "B" (Some "2020-01-01T00:00:00.000Z");
                 Samples.dated "D" (Some "2020-03-01T01:00:00.000+01:00") ])
    as Sorted.
  edestruct Sorted as [r [E [P [Sr St]]]].
  - vm_compute. reflexivity.
  - repeat constructor.
  - exists r. split; [exact E|]. split; [|exact Sr].
    vm_compute in E. inversion E. reflexivity.
Defined.

Lemma extract_product_info_keeps_records_witness :
  exists es,
    Normalize.product_entries Samples.fromisoformat
      [ Samples.dated "B" (Some "2020-03-01"); Samples.dated "A" None ]
    = Normalize.Returns es
    /\ Permutation es
         [ {| Normalize.product_name := "A"; Normalize.acquisition_date := None;
              Normalize.datetime_str := EmptyString; Normalize.online := true;
              Normalize.size_bytes := 0%Z; Normalize.size_mb := 0%Q;
              Normalize.s3_path := None |};
           {| Normalize.product_name := "B";
              Normalize.acquisition_date :=
                Some {| Normalize.ticks := 63718617600000000%Z;
                        Normalize.utcoffset := None |};
              Normalize.datetime_str := "2020-03-01"; Normalize.online := true;
              Normalize.size_bytes := 0%Z; Normalize.size_mb := 0%Q;
              Normalize.s3_path := None |} ]
    /\ 2 = 2.
Proof.
  apply (extract_product_info_keeps_records Samples.fromisoformat
           [ Samples.dated "B" (Some "2020-03-01"); Samples.dated "A" None ]).
  vm_compute. reflexivity.
Defined.

Lemma paths_of_extracted_records_witness :
  Permutation
    (Results.paths_of
       [ Samples.summary "S2A_MSIL2A" (Some "/eodata/a");
         Samples.summary "S2A_MSIL2A" None;
         Samples.summary "S2A_MSIL2A" (Some "/eodata/b") ])
    (Results.truthy_paths
       (map Normalize.resolve_s3_path
          [ Samples.stored (Some [Samples.s3path_attribute "/eodata/a"]) None;
            Samples.stored None None;
            Samples.stored (Some [Samples.s3path_attribute EmptyString])
              (Some "/eodata/b") ])).
Proof.
  apply (paths_of_extracted_records Samples.fromisoformat).
  reflexivity.
Defined.

Lemma size_mb_monotone_witness :
  Qle (Normalize.size_mb_of 5243) (Normalize.size_mb_of 1572864).
Proof. apply (size_mb_monotone 5243 1572864). lia. Defined.

Lemma size_mb_zero_threshold_witness :
  Qeq (Normalize.size_mb_of 5243) 0 <-> (5243 <= 5242)%Z.
Proof. apply (size_mb_zero_threshold 5243). lia. Defined.

Lemma paths_content_round_trip_witness :
  let products := [ Samples.summary "A" (Some "/a"); Samples.summary "B" (Some "/b");
                    Samples.summary "C" None ] in
  Results.split_on Results.newline_char (Results.paths_content products)
  = ["/a"; "/b"]
  /\ (Results.paths_content products = EmptyString <-> Results.paths_of products = [])
  /\ Forall (fun line => line <> EmptyString) ["/a"; "/b"].
Proof.
  apply (paths_content_round_trip
           [ Samples.summary "A" (Some "/a"); Samples.summary "B" (Some "/b");
             Samples.summary "C" None ]).
  repeat constructor.
Defined.

(** Products without any path: an empty file, which splits into one
    empty line. *)
Lemma paths_content_without_paths :
  let products := [ Samples.summary "A" None; Samples.summary "B" (Some EmptyString) ] in
  Results.paths_of products = []
  /\ Results.paths_content products = EmptyString
  /\ Results.split_on Results.newline_char (Results.paths_content products)
     = [EmptyString].
Proof. cbv zeta. repeat split. Qed.
